(** * simple-http-file-server: access policy, request authentication,
      file operations and start-up, embedded from [server.py].

    Python values are modelled as follows.
    - [str] is [string]; a character is a code point below 256.
    - a [dict] is a [gmap]; [k in d] is [d !! k] being [Some _].
    - [None] where a string is expected is [option string].
    - an exception is the [None] of an [option] result.
    - an object mutated in place is rebuilt and returned. *)

From stdpp Require Import gmap strings list fin_maps.
From Stdlib Require Import Ascii String DecimalString.

Set Warnings "-register-all".
Local Open Scope string_scope.

(** ** Python string primitives used by the server *)

Module PyStr.

(** [s.split(sep)] for a one-character separator: never returns the
    empty list, and keeps empty pieces. *)
Fixpoint split (sep : ascii) (s : string) : list string :=
  match s with
  | EmptyString => [EmptyString]
  | String c rest =>
      if Ascii.eqb c sep then EmptyString :: split sep rest
      else match split sep rest with
           | [] => [String c EmptyString]
           | x :: xs => String c x :: xs
           end
  end.

(** [sep.join(l)]. *)
Fixpoint join (sep : string) (l : list string) : string :=
  match l with
  | [] => ""
  | [x] => x
  | x :: rest => x ++ sep ++ join sep rest
  end.

(** [c in s] for a character [c]. *)
Fixpoint contains (c : ascii) (s : string) : bool :=
  match s with
  | EmptyString => false
  | String d rest => Ascii.eqb d c || contains c rest
  end.

(** [s.startswith(p)]. *)
Definition startswith (p s : string) : bool := String.prefix p s.

(** [s.endswith(p)] for a one-character [p]. *)
Fixpoint endswith_char (c : ascii) (s : string) : bool :=
  match s with
  | EmptyString => false
  | String d EmptyString => Ascii.eqb d c
  | String _ rest => endswith_char c rest
  end.

(** [s[n:]]. *)
Fixpoint drop (n : nat) (s : string) : string :=
  match n, s with
  | O, _ => s
  | S _, EmptyString => EmptyString
  | S k, String _ rest => drop k rest
  end.

(** [c.isspace()] on code points below 256. *)
Definition isspace (c : ascii) : bool :=
  let n := nat_of_ascii c in
  (Nat.leb 9 n && Nat.leb n 13) || (Nat.leb 28 n && Nat.leb n 32)
  || Nat.eqb n 133 || Nat.eqb n 160.

Fixpoint lstrip (s : string) : string :=
  match s with
  | EmptyString => EmptyString
  | String c rest => if isspace c then lstrip rest else s
  end.

Fixpoint rstrip (s : string) : string :=
  match s with
  | EmptyString => EmptyString
  | String c rest =>
      match rstrip rest with
      | EmptyString => if isspace c then EmptyString else String c EmptyString
      | r => String c r
      end
  end.

(** [s.strip()]. *)
Definition strip (s : string) : string := rstrip (lstrip s).

(** [x in l] for a list of strings. *)
Definition mem (x : string) (l : list string) : bool :=
  bool_decide (x ∈ l).

End PyStr.

(** ** PathConfig and AuthConfig *)

(** One node of the permission tree.  [perms] maps a user name (or ["*"])
    to the list of permission letters of the rule; [children] maps a path
    segment to the node below. *)
Inductive PathConfig : Type :=
  mkPathConfig {
    filename : string;
    perms : gmap string (list string);
    children : gmap string PathConfig
  }.

(** [PathConfig.__init__]: raises when the name holds a separator. *)
Definition PathConfig_init (name : string) : option PathConfig :=
  if PyStr.contains "/" name then None
  else Some (mkPathConfig name ∅ ∅).

Record AuthConfig : Type :=
  mkAuthConfig {
    root : PathConfig;
    users : gmap string string
  }.

(** [AuthConfig.__init__]: the root is [PathConfig('')]. *)
Definition AuthConfig_init : AuthConfig :=
  mkAuthConfig (mkPathConfig "" ∅ ∅) ∅.

(** The segments [add_path_config] keeps. *)
Definition kept_segment (p : string) : bool :=
  negb (PyStr.mem p [""; "."; ".."]).

Definition path_items (path : string) : list string :=
  List.filter kept_segment (PyStr.split "/" path).

(** The loop and the final assignment of [add_path_config], on the node
    [p]: walk or create the chain, then overwrite [perms[user]]. *)
Fixpoint add_items (p : PathConfig) (items : list string)
    (user : string) (ps : list string) : option PathConfig :=
  match items with
  | [] => Some (mkPathConfig (filename p) (<[user := ps]> (perms p)) (children p))
  | i :: rest =>
      c ← match children p !! i with
          | Some c => Some c
          | None => PathConfig_init i
          end;
      c' ← add_items c rest user ps;
      Some (mkPathConfig (filename p) (perms p) (<[i := c']> (children p)))
  end.

Definition add_path_config (cfg : AuthConfig) (path user : string)
    (ps : list string) : option AuthConfig :=
  r ← add_items (root cfg) (path_items path) user ps;
  Some (mkAuthConfig r (users cfg)).

(** The decoded JSON configuration file. *)
Record ConfigPath : Type :=
  mkConfigPath { cp_path : string; cp_user : string; cp_perms : list string }.

Record ConfigUser : Type :=
  mkConfigUser { cu_user : string; cu_psw : string }.

Record Config : Type :=
  mkConfig { config_paths : list ConfigPath; config_users : list ConfigUser }.

Fixpoint load_paths (cfg : AuthConfig) (l : list ConfigPath) : option AuthConfig :=
  match l with
  | [] => Some cfg
  | cp :: rest =>
      cfg' ← add_path_config cfg (cp_path cp) (cp_user cp) (cp_perms cp);
      load_paths cfg' rest
  end.

Fixpoint load_users (cfg : AuthConfig) (l : list ConfigUser) : AuthConfig :=
  match l with
  | [] => cfg
  | cu :: rest =>
      load_users (mkAuthConfig (root cfg) (<[cu_user cu := cu_psw cu]> (users cfg))) rest
  end.

(** [load_config], given what [json.load] and the look-ups of the keys
    found in the file ([None] when any of them raises).  An exception in
    the [try] block reaches the [except] branch, which calls
    [self.log_write]; [AuthConfig] has no such method, so the branch
    raises [AttributeError] and [load_config] ends in that exception:
    the result is [None]. *)
Definition load_config (cfg : AuthConfig) (parsed : option Config)
    : option AuthConfig :=
  match parsed with
  | None => None
  | Some config =>
      match load_paths cfg (config_paths config) with
      | None => None
      | Some cfg' => Some (load_users cfg' (config_users config))
      end
  end.

(** [check_perm]: the decision of one node, [None] when the node has no
    entry for the user and none for ["*"]. *)
Definition check_perm (ps : gmap string (list string)) (user perm : string)
    : option bool :=
  match ps !! user with
  | Some l => if PyStr.mem perm l then Some true else Some false
  | None =>
      match ps !! "*" with
      | Some l => if PyStr.mem perm l then Some true else Some false
      | None => None
      end
  end.

Definition combine_perm (prev : bool) (next : option bool) : bool :=
  match next with
  | None => prev
  | Some b => b
  end.

(** The [for i in items] loop of [check_path_for_perm], entered at node
    [p] with the accumulated [result]. *)
Fixpoint check_items (p : PathConfig) (items : list string)
    (user perm : string) (result : bool) : bool :=
  match items with
  | [] => result
  | i :: rest =>
      match children p !! i with
      | None => result
      | Some c =>
          check_items c rest user perm
            (combine_perm result (check_perm (perms c) user perm))
      end
  end.

(** [check_path_for_perm] after the credential test, for the user name
    the test settled on. *)
Definition check_path_as (cfg : AuthConfig) (path perm user : string) : bool :=
  let p := root cfg in
  let items := PyStr.split "/" path in
  let result := combine_perm true (check_perm (perms p) user perm) in
  check_items p items user perm result.

Definition check_path_for_perm (cfg : AuthConfig) (path perm user : string)
    (psw : option string) : bool :=
  match users cfg !! user with
  | None => check_path_as cfg path perm "*"
  | Some stored =>
      if bool_decide (Some stored ≠ psw) then false
      else check_path_as cfg path perm user
  end.

(** ** Notions used to state the properties of the policy *)

(** The nodes the tree has along [items], the entry node first. *)
Fixpoint nodes_on_path (p : PathConfig) (items : list string) : list PathConfig :=
  p :: match items with
       | [] => []
       | i :: rest =>
           match children p !! i with
           | None => []
           | Some c => nodes_on_path c rest
           end
       end.

(** The name under which rules are looked up once the credentials are
    accepted; [None] when they are rejected. *)
Definition effective_user (cfg : AuthConfig) (user : string)
    (psw : option string) : option string :=
  match users cfg !! user with
  | None => Some "*"
  | Some stored => if bool_decide (psw = Some stored) then Some user else None
  end.

(** One step of the accumulation along the nodes of a path: a node
    overwrites the result when it decides. *)
Definition step (u perm : string) (r : bool) (n : PathConfig) : bool :=
  combine_perm r (check_perm (perms n) u perm).

(** A node carries no entry that a query of [user] could use. *)
Definition no_entry_for (user : string) (n : PathConfig) : Prop :=
  perms n !! user = None ∧ perms n !! "*" = None.

(** Resolution as the specification words it (section 4.2, steps 1 to
    7): the query path is split into segments with empty, [.] and [..]
    discarded, like a rule path, before the walk. *)
Definition spec_IsAllowed (cfg : AuthConfig) (path perm user : string)
    (psw : option string) : bool :=
  match effective_user cfg user psw with
  | None => false
  | Some u =>
      check_items (root cfg) (path_items path) u perm
        (combine_perm true (check_perm (perms (root cfg)) u perm))
  end.

(** ** Requests, handler output and the platform *)

Module HTTPStatus.
Definition OK : nat := 200.
Definition MOVED_PERMANENTLY : nat := 301.
Definition UNAUTHORIZED : nat := 401.
Definition NOT_FOUND : nat := 404.
Definition METHOD_NOT_ALLOWED : nat := 405.
Definition INTERNAL_SERVER_ERROR : nat := 500.
End HTTPStatus.

(** The request methods the handler classes define a [do_] method for. *)
Inductive Method : Type := HEAD | GET | PUT | DELETE.

Record Request : Type :=
  mkRequest {
    command : Method;
    req_path : string;
    headers : list (string * string);
    rfile : string
  }.

(** What a handler sends, call by call. [copyfile] is the body that the
    inherited [do_GET] copies from the file object to [wfile]. *)
Inductive Out : Type :=
  | send_response (code : nat)
  | send_header (keyword value : string)
  | end_headers
  | send_error (code : nat) (message : option string)
  | wfile_write (data : string)
  | copyfile (data : string).

Inductive LogEntry : Type :=
  | Log_headers (hs : list (string * string))
  | Log_message (msg : string).

(** A value or a raised exception with its [str(e)]. *)
Inductive res (A : Type) : Type :=
  | Ok (a : A)
  | Raise (e : string).
Arguments Ok {A} a.
Arguments Raise {A} e.

(** What [open(path, 'rb')] gives: the file, modelled by its content, an
    [OSError], or another exception ([ValueError] on a path with a NUL
    byte). *)
Inductive opened : Type :=
  | Opened (data : string)
  | Open_OSError (e : string)
  | Open_raises (e : string).

Record UrlParts : Type :=
  mkUrlParts {
    url_scheme : string; url_netloc : string; url_path : string;
    url_query : string; url_fragment : string
  }.

(** The collaborators outside [server.py]: the file system, [os.path],
    [urllib.parse], [mimetypes], [base64], the shell's [find] and the
    inherited [translate_path].  [FS] is the state of the file system. *)
Class Platform : Type :=
  {
    FS : Type;
    translate_path : string → string;
    relpath : string → string;
    dirname : string → string;
    urlsplit : string → UrlParts;
    urlunsplit : UrlParts → string;
    isdir : FS → string → bool;
    path_exists : FS → string → bool;
    (** [open(path, 'rb')] *)
    open_rb : FS → string → opened;
    (** [mimetypes.MimeTypes().guess_type(path)[0]] *)
    guess_type : string → option string;
    (** [date_time_string(os.fstat(..).st_mtime)] *)
    mtime_string : FS → string → string;
    (** the calls below change the file system, also when they raise *)
    makedirs : FS → string → res unit * FS;
    (** [open(path, 'wb')]: creates or truncates *)
    open_wb : FS → string → res unit * FS;
    (** [out_file.write(data)] on the file opened at [path] *)
    file_write : FS → string → string → res unit * FS;
    rmtree : FS → string → res unit * FS;
    remove : FS → string → res unit * FS;
    (** [subprocess.Popen('cd "%s"; find . -type f' % root, shell=True)
        .stdout.read()]: the bytes the command printed, and the file
        system it leaves; the command line is built from [root], so a
        path that holds shell syntax runs what it says *)
    shell_find : FS → string → res string * FS;
    (** [output.decode()]: raises on bytes that are not UTF-8 *)
    bytes_decode : string → res string;
    (** [base64.b64decode(txt.encode('UTF-8')).decode('UTF-8')] *)
    b64decode_utf8 : string → res string;
    (** [int(x)] of a header value, [x] possibly [None] *)
    int_of_header : option string → res Z;
    (** whether [wfile.write] takes a [str] without raising [TypeError] *)
    wfile_accepts_str : bool
  }.

(** [str(n)] for a natural number. *)
Definition str_of_nat (n : nat) : string :=
  DecimalString.NilEmpty.string_of_uint (Nat.to_uint n).

(** ASCII lower case, for header names. *)
Definition lower_ascii (c : ascii) : ascii :=
  let n := nat_of_ascii c in
  if Nat.leb 65 n && Nat.leb n 90 then ascii_of_nat (n + 32) else c.

Fixpoint lower (s : string) : string :=
  match s with
  | EmptyString => EmptyString
  | String c rest => String (lower_ascii c) (lower rest)
  end.

(** [self.headers.get(name)]: the first header of that name, case
    ignored. *)
Fixpoint headers_get (name : string) (hs : list (string * string)) : option string :=
  match hs with
  | [] => None
  | (k, v) :: rest =>
      if String.eqb (lower k) (lower name) then Some v else headers_get name rest
  end.

(** *** JSON text of a list of strings *)

Definition hex_digit (n : nat) : ascii :=
  if Nat.ltb n 10 then ascii_of_nat (48 + n) else ascii_of_nat (87 + n).

(** An escape of [json.dumps] with [ensure_ascii]: every character
    outside the printable ASCII range, the quote and the backslash. *)
Definition json_escape_char (c : ascii) : string :=
  let n := nat_of_ascii c in
  if Nat.eqb n 34 then String (ascii_of_nat 92) (String (ascii_of_nat 34) EmptyString)
  else if Nat.eqb n 92 then "\\"
  else if Nat.eqb n 10 then "\n"
  else if Nat.eqb n 13 then "\r"
  else if Nat.eqb n 9 then "\t"
  else if Nat.eqb n 8 then "\b"
  else if Nat.eqb n 12 then "\f"
  else if Nat.leb 32 n && Nat.leb n 126 then String c EmptyString
  else "\u00" ++ String (hex_digit (n / 16)) (String (hex_digit (n mod 16)) EmptyString).

Fixpoint json_escape (s : string) : string :=
  match s with
  | EmptyString => EmptyString
  | String c rest => json_escape_char c ++ json_escape rest
  end.

Definition json_string (s : string) : string :=
  String (ascii_of_nat 34) (json_escape s) ++ String (ascii_of_nat 34) EmptyString.

(** [json.dumps(l, sort_keys=sort_keys)] for a list [l] of strings: the
    elements in the order of [l].  [sort_keys] orders the keys of
    dictionaries, and a list of strings holds none. *)
Definition json_dumps (l : list string) (sort_keys : bool) : string :=
  "[" ++ PyStr.join ", " (List.map json_string l) ++ "]".

(** ** The handler monad: file system, output and log threaded through a
    request; [Raise] is an exception that leaves the [do_] method. *)

Definition nl : string := String (ascii_of_nat 10) EmptyString.
Definition dquote : string := String (ascii_of_nat 34) EmptyString.

Record Server : Type :=
  mkServer {
    srv_log_headers : bool;
    srv_auth_config : option AuthConfig
  }.

Module Handler.
Section with_platform.
Context {platform : Platform}.

Record HState : Type :=
  mkHState { st_fs : FS; st_out : list Out; st_log : list LogEntry }.

Definition H (A : Type) : Type := HState → res A * HState.

Definition ret {A : Type} (a : A) : H A := λ st, (Ok a, st).

Definition bind {A B : Type} (m : H A) (k : A → H B) : H B :=
  λ st, match m st with
        | (Ok a, st') => k a st'
        | (Raise e, st') => (Raise e, st')
        end.

Definition raise {A : Type} (e : string) : H A := λ st, (Raise e, st).

Definition emit (o : Out) : H unit :=
  λ st, (Ok (), mkHState (st_fs st) (st_out st ++ [o]) (st_log st)).

Definition log (l : LogEntry) : H unit :=
  λ st, (Ok (), mkHState (st_fs st) (st_out st) (st_log st ++ [l])).

Definition get_fs : H FS := λ st, (Ok (st_fs st), st).

Definition set_fs (fs : FS) : H unit :=
  λ st, (Ok (), mkHState fs (st_out st) (st_log st)).

End with_platform.
End Handler.

Import Handler.

Declare Scope handler_scope.
Delimit Scope handler_scope with handler.
Notation "x ← y ; z" := (bind y (λ x, z))
  (at level 20, y at level 100, z at level 200, only parsing) : handler_scope.
Notation "x ;; z" := (bind x (λ _, z))
  (at level 100, z at level 200, only parsing, right associativity) : handler_scope.

(** ** SimpleHTTPFileServer *)

Module SimpleHTTPFileServer.
Section with_platform.
Context {platform : Platform}.
Local Open Scope handler_scope.

Definition log_headers_if_needed (srv : Server) (req : Request) : H unit :=
  if srv_log_headers srv then log (Log_headers (headers req)) else ret ().

Definition log_message (msg : string) : H unit := log (Log_message msg).

Definition _list_files (root : string) : H (list string) :=
  fs ← get_fs;
  match shell_find fs root with
  | (Raise e, fs') => set_fs fs';; raise e
  | (Ok output, fs') =>
      set_fs fs';;
      match bytes_decode output with
      | Raise e => raise e
      | Ok txt => ret (PyStr.split (ascii_of_nat 10) (PyStr.strip txt))
      end
  end.

Definition list_directory (path : string) : H (option string) :=
  files ← _list_files path;
  let encoded := json_dumps files true in
  emit (send_response HTTPStatus.OK) ;;
  emit (send_header "Content-type" "text/json; charset=utf-8") ;;
  emit (send_header "Content-Length" (str_of_nat (String.length encoded))) ;;
  emit end_headers ;;
  ret (Some encoded).

(** The file object returned is modelled by its content. *)
Definition send_head (req : Request) : H (option string) :=
  let path := translate_path (req_path req) in
  fs ← get_fs;
  if isdir fs path then
    let parts := urlsplit (req_path req) in
    if negb (PyStr.endswith_char "/" (url_path parts)) then
      let new_parts :=
        mkUrlParts (url_scheme parts) (url_netloc parts)
          (url_path parts ++ "/") (url_query parts) (url_fragment parts) in
      emit (send_response HTTPStatus.MOVED_PERMANENTLY) ;;
      emit (send_header "Location" (urlunsplit new_parts)) ;;
      emit end_headers ;;
      ret None
    else list_directory path
  else
    match open_rb fs path with
    | Open_raises e => raise e
    | Open_OSError _ =>
        emit (send_error HTTPStatus.NOT_FOUND (Some "File not found")) ;;
        ret None
    | Opened data =>
        emit (send_response HTTPStatus.OK) ;;
        emit (send_header "Content-type"
                (match guess_type path with Some t => t | None => "None" end)) ;;
        emit (send_header "Content-Length" (str_of_nat (String.length data))) ;;
        emit (send_header "Last-Modified" (mtime_string fs path)) ;;
        emit end_headers ;;
        ret (Some data)
    end.

(** [super().do_HEAD()] of [http.server]: sends the head and closes the
    file. *)
Definition do_HEAD (srv : Server) (req : Request) : H unit :=
  log_headers_if_needed srv req ;;
  f ← send_head req;
  ret ().

(** [super().do_GET()] of [http.server]: sends the head, then copies
    the file to [wfile]. *)
Definition do_GET (srv : Server) (req : Request) : H unit :=
  log_headers_if_needed srv req ;;
  f ← send_head req;
  match f with
  | Some data => emit (copyfile data)
  | None => ret ()
  end.

(** The [while length > 0] loop; [fuel] bounds the iterations, and
    [Z.to_nat length] of them are enough since every round takes at
    least one byte off [length]. *)
Fixpoint copy_fileobj_length (fuel : nat) (fs : FS) (in_file out_path : string)
    (length bufsize : Z) : res unit * FS :=
  match fuel with
  | O => (Ok (), fs)
  | S fuel' =>
      if (0 <? length)%Z then
        let bufsize := if (length <? bufsize)%Z then length else bufsize in
        let length := (length - bufsize)%Z in
        let n := Z.to_nat bufsize in
        match file_write fs out_path (String.substring 0 n in_file) with
        | (Raise e, fs') => (Raise e, fs')
        | (Ok _, fs') =>
            copy_fileobj_length fuel' fs' (PyStr.drop n in_file) out_path
              length bufsize
        end
      else (Ok (), fs)
  end.

(** The [try] block of [do_PUT]; the file system reached when an
    exception is raised midway is kept. *)
Definition put_body (req : Request) (path : string) (fs : FS) : res unit * FS :=
  let parent_dir := dirname path in
  match (if negb (path_exists fs parent_dir) then makedirs fs parent_dir
         else (Ok (), fs)) with
  | (Raise e, fs1) => (Raise e, fs1)
  | (Ok _, fs1) =>
      match int_of_header (headers_get "Content-Length" (headers req)) with
      | Raise e => (Raise e, fs1)
      | Ok length =>
          match open_wb fs1 path with
          | (Raise e, fs2) => (Raise e, fs2)
          | (Ok _, fs2) =>
              copy_fileobj_length (Z.to_nat length) fs2 (rfile req) path
                length (1024 * 128)
          end
      end
  end.

Definition do_PUT (srv : Server) (req : Request) : H unit :=
  log_headers_if_needed srv req ;;
  let path := translate_path (req_path req) in
  fs ← get_fs;
  if isdir fs path then
    emit (send_error HTTPStatus.METHOD_NOT_ALLOWED None)
  else
    match put_body req path fs with
    | (Raise e, fs') =>
        set_fs fs' ;;
        log_message e ;;
        emit (send_error HTTPStatus.METHOD_NOT_ALLOWED None)
    | (Ok _, fs') =>
        set_fs fs' ;;
        emit (send_response HTTPStatus.OK) ;;
        emit end_headers
    end.

Definition do_DELETE (srv : Server) (req : Request) : H unit :=
  log_headers_if_needed srv req ;;
  let path := translate_path (req_path req) in
  fs ← get_fs;
  if negb (path_exists fs path) then
    emit (send_error HTTPStatus.NOT_FOUND None)
  else
    match (if isdir fs path then rmtree fs path else remove fs path) with
    | (Raise e, fs') =>
        set_fs fs' ;;
        log_message e ;;
        emit (send_error HTTPStatus.INTERNAL_SERVER_ERROR None)
    | (Ok _, fs') =>
        set_fs fs' ;;
        emit (send_response HTTPStatus.OK) ;;
        emit end_headers
    end.

End with_platform.
End SimpleHTTPFileServer.

(** ** Credentials in the Authorization header *)

Section decode.
Context {platform : Platform}.

(** [decode_http_auth_password]: [None] unless the decoded text splits
    into exactly two pieces at its colons. *)
Definition decode_http_auth_password (txt : string)
    : res (option (string * string)) :=
  match b64decode_utf8 txt with
  | Raise e => Raise e
  | Ok txt' =>
      match PyStr.split ":" txt' with
      | [item0; item1] => Ok (Some (item0, item1))
      | _ => Ok None
      end
  end.

End decode.

(** ** AuthSimpleHTTPFileServer *)

Module AuthSimpleHTTPFileServer.
Section with_platform.
Context {platform : Platform}.
Local Open Scope handler_scope.

Definition do_AUTHHEAD (srv : Server) (req : Request) : H unit :=
  SimpleHTTPFileServer.log_headers_if_needed srv req;;
  emit (send_response HTTPStatus.UNAUTHORIZED);;
  emit (send_header "WWW-Authenticate" ("Basic realm=" ++ dquote ++ "Test" ++ dquote));;
  emit (send_header "Content-type" "text/html");;
  emit end_headers;;
  emit (wfile_write ("Not authenticated" ++ nl)).

(** The user and the password of the request: [Ok None] when the header
    is not usable, [("*", None)] when there is no header. *)
Definition _get_auth_user_and_psw_from_header (req : Request)
    : res (option (string * option string)) :=
  match headers_get "Authorization" (headers req) with
  | None => Ok (Some ("*", None))
  | Some auth_header =>
      if negb (PyStr.startswith "Basic " auth_header) then Ok None
      else
        match decode_http_auth_password (PyStr.strip (PyStr.drop 6 auth_header)) with
        | Raise e => Raise e
        | Ok None => Ok None
        | Ok (Some (user, psw)) => Ok (Some (user, Some psw))
        end
  end.

(** The [except] branch of [check_auth_impl]: logs, writes [str(e)] to
    [wfile], a binary stream, and returns [False] if that write did
    not raise. *)
Definition check_auth_except (e : string) : H bool :=
  SimpleHTTPFileServer.log_message e;;
  if wfile_accepts_str then emit (wfile_write e);; ret false
  else raise "TypeError".

Definition check_auth_impl (cfg : AuthConfig) (req : Request) (perm : string)
    : H bool :=
  let path := translate_path (req_path req) in
  let path := relpath path in
  if PyStr.startswith ".." path then ret false
  else
    fs ← get_fs;
    let perm := if isdir fs path then "l" else perm in
    match _get_auth_user_and_psw_from_header req with
    | Raise e => check_auth_except e
    | Ok None => ret false
    | Ok (Some (user, psw)) => ret (check_path_for_perm cfg path perm user psw)
    end.

Definition check_auth (cfg : AuthConfig) (srv : Server) (req : Request)
    (perm : string) : H bool :=
  ok ← check_auth_impl cfg req perm;
  if negb ok then do_AUTHHEAD srv req;; ret false
  else ret true.

Definition do_HEAD (cfg : AuthConfig) (srv : Server) (req : Request) : H unit :=
  ok ← check_auth cfg srv req "r";
  if ok then SimpleHTTPFileServer.do_HEAD srv req else ret ().

Definition do_GET (cfg : AuthConfig) (srv : Server) (req : Request) : H unit :=
  ok ← check_auth cfg srv req "r";
  if ok then SimpleHTTPFileServer.do_GET srv req else ret ().

Definition do_PUT (cfg : AuthConfig) (srv : Server) (req : Request) : H unit :=
  ok ← check_auth cfg srv req "w";
  if ok then SimpleHTTPFileServer.do_PUT srv req else ret ().

(** Not overridden: the method of [SimpleHTTPFileServer] is inherited. *)
Definition do_DELETE (cfg : AuthConfig) (srv : Server) (req : Request) : H unit :=
  SimpleHTTPFileServer.do_DELETE srv req.

(** [getattr(self, 'do_' + self.command)()]. *)
Definition handle (cfg : AuthConfig) (srv : Server) (req : Request) : H unit :=
  match command req with
  | HEAD => do_HEAD cfg srv req
  | GET => do_GET cfg srv req
  | PUT => do_PUT cfg srv req
  | DELETE => do_DELETE cfg srv req
  end.

End with_platform.
End AuthSimpleHTTPFileServer.

Section dispatch.
Context {platform : Platform}.

Definition SimpleHTTPFileServer_handle (srv : Server) (req : Request) : H unit :=
  match command req with
  | HEAD => SimpleHTTPFileServer.do_HEAD srv req
  | GET => SimpleHTTPFileServer.do_GET srv req
  | PUT => SimpleHTTPFileServer.do_PUT srv req
  | DELETE => SimpleHTTPFileServer.do_DELETE srv req
  end.

(** The handler class [ListenerThread.run] gives the server: the plain
    one without an access policy, the authenticating one with it. *)
Definition handle_request (srv : Server) (req : Request) : H unit :=
  match srv_auth_config srv with
  | None => SimpleHTTPFileServer_handle srv req
  | Some cfg => AuthSimpleHTTPFileServer.handle cfg srv req
  end.

(** A request served from a file system, with nothing sent yet. *)
Definition serve (srv : Server) (req : Request) (fs : FS) : res unit * HState :=
  handle_request srv req (mkHState fs [] []).

End dispatch.

(** ** Start-up *)

Module Startup.

Inductive Event : Type :=
  | ev_open_log (path : string)
  | ev_log_thread_start
  | ev_log_write (msg : string)
  | ev_chdir (path : string)
  | ev_socket
  | ev_setsockopt
  | ev_bind (host : string) (port : N)
  | ev_listen (backlog : nat)
  | ev_auth_config_init
  | ev_load_config (path : string)
  | ev_listener_start (i : nat)
  | ev_listener_join (i : nat).

(** How a run of the main thread ends: [sys.exit], an exception nobody
    catches, or the wait for listeners that serve forever. *)
Inductive Outcome : Type :=
  | Exited (status : nat)
  | Uncaught (e : string)
  | Waiting.

(** The exit status of the process; [None] while it keeps running. *)
Definition exit_status (o : Outcome) : option nat :=
  match o with
  | Exited n => Some n
  | Uncaught _ => Some 1
  | Waiting => None
  end.

(** What the operating system answers to the calls of start-up. *)
Record World : Type :=
  mkWorld {
    can_open_log : string → bool;
    can_chdir : string → bool;
    can_socket : bool;
    can_bind : string → N → bool;
    file_exists : string → bool;
    (** what [json.load] and the look-ups of the keys find in a file;
        [None] when any of them raises *)
    parsed_config : string → option Config
  }.

Record Args : Type :=
  mkArgs {
    host : string; port : N; access_config_path : option string;
    should_log_headers : bool; log_path : option string;
    should_flush_log : bool; num_threads : nat; storage_path : string
  }.

(** A trace of events, and the value or the end of the run. *)
Definition M (A : Type) : Type := list Event * (Outcome + A).

Definition ret {A : Type} (a : A) : M A := ([], inr a).

Definition bind {A B : Type} (m : M A) (k : A → M B) : M B :=
  match m with
  | (t, inl o) => (t, inl o)
  | (t, inr a) => let (t', r) := k a in ((t ++ t')%list, r)
  end.

Definition tell (e : Event) : M unit := ([e], inr ()).

Definition stop {A : Type} (o : Outcome) : M A := ([], inl o).

(** An operating-system call that raises when [ok] is false. *)
Definition syscall (ok : bool) (e : Event) (err : string) : M unit :=
  if ok then tell e else stop (Uncaught err).

Declare Scope startup_scope.
Delimit Scope startup_scope with startup.
Notation "x ← y ; z" := (bind y (λ x, z))
  (at level 20, y at level 100, z at level 200, only parsing) : startup_scope.
Notation "x ;; z" := (bind x (λ _, z))
  (at level 100, z at level 200, only parsing, right associativity) : startup_scope.
Local Open Scope startup_scope.

Definition setup_log (w : World) (log_path : option string) : M unit :=
  match log_path with
  | Some p => syscall (can_open_log w p) (ev_open_log p) "OSError"
  | None => ret ()
  end;;
  tell ev_log_thread_start.

Definition create_socket (w : World) (host : string) (port : N) : M unit :=
  syscall (can_socket w) ev_socket "OSError";;
  tell ev_setsockopt;;
  syscall (can_bind w host port) (ev_bind host port) "OSError";;
  tell (ev_listen 5).

Fixpoint start_listeners (i n : nat) : M unit :=
  match n with
  | O => ret ()
  | S n' => tell (ev_listener_start i);; start_listeners (S i) n'
  end.

(** [x.join()] on the first listener does not return: listeners run
    [serve_forever]. *)
Definition join_listeners (n : nat) : M unit :=
  match n with
  | O => ret ()
  | S _ => stop Waiting
  end.

Definition setup_and_start_http_server (w : World) (a : Args) : M unit :=
  setup_log w (log_path a);;
  tell (ev_log_write ("hosting server from: " ++ storage_path a));;
  syscall (can_chdir w (storage_path a)) (ev_chdir (storage_path a)) "OSError";;
  create_socket w (host a) (port a);;
  match access_config_path a with
  | None => ret ()
  | Some p =>
      if negb (file_exists w p) then
        tell (ev_log_write ("No such file: " ++ p ++ nl));;
        stop (Exited 1)
      else
        tell (ev_log_write ("Setting up access restrictions" ++ nl));;
        tell ev_auth_config_init;;
        match load_config AuthConfig_init (parsed_config w p) with
        | Some _ => tell (ev_load_config p)
        | None => stop (Uncaught "AttributeError")
        end
  end;;
  tell (ev_log_write ("listening on " ++ host a ++ ":" ++ str_of_nat (N.to_nat (port a))
                      ++ " using " ++ str_of_nat (num_threads a) ++ " threads" ++ nl));;
  start_listeners 0 (num_threads a);;
  join_listeners (num_threads a).

(** A run: the events in order and how the main thread ended
    ([Exited 0] when it falls off the end of [main]). *)
Definition run (w : World) (a : Args) : list Event * Outcome :=
  match setup_and_start_http_server w a with
  | (t, inl o) => (t, o)
  | (t, inr _) => (t, Exited 0)
  end.


End Startup.

(** ** Notions used to state the properties of the handlers *)

(** The number of occurrences of a character. *)
Fixpoint count_char (c : ascii) (s : string) : nat :=
  match s with
  | EmptyString => 0
  | String d rest => (if Ascii.eqb d c then 1 else 0) + count_char c rest
  end.

(** The segments of a query path up to its first empty, [.] or [..]
    segment. *)
Fixpoint segments_before_discarded (items : list string) : list string :=
  match items with
  | [] => []
  | i :: rest => if kept_segment i then i :: segments_before_discarded rest else []
  end.

(** Resolution along a given list of segments, credentials first. *)
Definition resolve_items (cfg : AuthConfig) (items : list string)
    (perm user : string) (psw : option string) : bool :=
  match effective_user cfg user psw with
  | None => false
  | Some u =>
      check_items (root cfg) items u perm
        (combine_perm true (check_perm (perms (root cfg)) u perm))
  end.

(** The node reached from [p] along [items], if the tree has it. *)
Fixpoint descend (p : PathConfig) (items : list string) : option PathConfig :=
  match items with
  | [] => Some p
  | i :: rest =>
      match children p !! i with
      | None => None
      | Some c => descend c rest
      end
  end.

(** No node of the tree has a child named by a discarded segment. *)
Definition clean_tree (p : PathConfig) : Prop :=
  ∀ items n s, descend p items = Some n → kept_segment s = false →
               children n !! s = None.

(** The challenge [do_AUTHHEAD] sends. *)
Definition challenge : list Out :=
  [ send_response 401;
    send_header "WWW-Authenticate" ("Basic realm=" ++ dquote ++ "Test" ++ dquote);
    send_header "Content-type" "text/html";
    end_headers;
    wfile_write ("Not authenticated" ++ nl) ].

(** ** A small platform to run the handlers on *)

Module Demo.

(** Files with their content, directories, and the text [find] prints
    for a directory. Paths are relative to the storage root. *)
Record fs : Type :=
  mkFs {
    files : gmap string string;
    dirs : gset string;
    find_stdout : gmap string string
  }.

Definition b64_index (c : ascii) : option nat :=
  let n := nat_of_ascii c in
  if Nat.leb 65 n && Nat.leb n 90 then Some (n - 65)
  else if Nat.leb 97 n && Nat.leb n 122 then Some (n - 71)
  else if Nat.leb 48 n && Nat.leb n 57 then Some (n + 4)
  else if Nat.eqb n 43 then Some 62
  else if Nat.eqb n 47 then Some 63
  else None.

Definition is_pad (c : ascii) : bool := Ascii.eqb c "=".

(** Base64 of padded, well-formed input. *)
Fixpoint b64_bytes (l : list ascii) : option (list ascii) :=
  match l with
  | [] => Some []
  | a :: b :: c :: d :: rest =>
      match b64_index a, b64_index b with
      | Some x, Some y =>
          let b1 := ascii_of_nat (x * 4 + y / 16) in
          if is_pad c then
            if is_pad d then match rest with [] => Some [b1] | _ => None end
            else None
          else
            match b64_index c with
            | None => None
            | Some z =>
                let b2 := ascii_of_nat ((y mod 16) * 16 + z / 4) in
                if is_pad d then
                  match rest with [] => Some [b1; b2] | _ => None end
                else
                  match b64_index d, b64_bytes rest with
                  | Some w, Some tl =>
                      Some (b1 :: b2 :: ascii_of_nat ((z mod 4) * 64 + w) :: tl)
                  | _, _ => None
                  end
            end
      | _, _ => None
      end
  | _ => None
  end.

Definition b64decode_ascii (txt : string) : res string :=
  match b64_bytes (list_ascii_of_string txt) with
  | None => Raise "binascii.Error"
  | Some bytes =>
      if forallb (λ c, Nat.ltb (nat_of_ascii c) 128) bytes
      then Ok (string_of_list_ascii bytes)
      else Raise "UnicodeDecodeError"
  end.

Definition strip_slash (p : string) : string :=
  if PyStr.endswith_char "/" p
  then String.substring 0 (String.length p - 1) p else p.

Definition parse_int (x : option string) : res Z :=
  match x with
  | None => Raise "TypeError"
  | Some s =>
      match NilEmpty.uint_of_string s with
      | Some u => Ok (Z.of_nat (Nat.of_uint u))
      | None => Raise "ValueError"
      end
  end.

Definition under (dir p : string) : bool := String.prefix (dir ++ "/") p.

#[export] Instance platform : Platform :=
  {|
    FS := fs;
    translate_path := λ p, strip_slash (PyStr.drop 1 p);
    relpath := λ p, if String.eqb p "" then "." else p;
    dirname := λ p, "";
    urlsplit := λ p, mkUrlParts "" "" p "" "";
    urlunsplit := λ parts, url_path parts;
    isdir := λ s p, bool_decide (p ∈ dirs s) || String.eqb p "" || String.eqb p ".";
    path_exists := λ s p,
      bool_decide (is_Some (files s !! p)) || bool_decide (p ∈ dirs s)
      || String.eqb p "";
    open_rb := λ s p,
      if PyStr.contains (ascii_of_nat 0) p then Open_raises "ValueError"
      else match files s !! p with
           | Some d => Opened d
           | None => Open_OSError "FileNotFoundError"
           end;
    guess_type := λ _, None;
    mtime_string := λ _ _, "Thu, 01 Jan 1970 00:00:00 GMT";
    makedirs := λ s p, (Ok (), mkFs (files s) ({[p]} ∪ dirs s) (find_stdout s));
    open_wb := λ s p, (Ok (), mkFs (<[p := ""]> (files s)) (dirs s) (find_stdout s));
    file_write := λ s p d,
      (Ok (), mkFs (<[p := default "" (files s !! p) ++ d]> (files s)) (dirs s)
                (find_stdout s));
    rmtree := λ s p,
      (Ok (), mkFs (filter (λ kv, under p kv.1 = false) (files s))
                (filter (λ d, d ≠ p ∧ under p d = false) (dirs s))
                (find_stdout s));
    remove := λ s p, (Ok (), mkFs (delete p (files s)) (dirs s) (find_stdout s));
    shell_find := λ s p, (Ok (default "" (find_stdout s !! p)), s);
    bytes_decode := λ b,
      if forallb (λ c, Nat.ltb (nat_of_ascii c) 128) (list_ascii_of_string b)
      then Ok b else Raise "UnicodeDecodeError";
    b64decode_utf8 := b64decode_ascii;
    int_of_header := parse_int;
    wfile_accepts_str := false
  |}.

(** A storage root with the directory [d] holding the files [b] and
    [a], which [find] lists in that order. *)
Definition storage : fs :=
  mkFs {[ "d/b" := "B"; "d/a" := "A" ]} {[ "d" ]}
    {[ "d" := "./b" ++ nl ++ "./a" ++ nl ]}.

(** The handler state at the start of a request on [storage]. *)
Definition start : @HState platform := @mkHState platform storage [] [].

Definition plain_server : Server := mkServer false None.

Definition request (m : Method) (path : string) (auth : option string) : Request :=
  mkRequest m path
    (match auth with Some h => [("Authorization", h)] | None => [] end) "".

(** The policy [load_config] builds in a fresh [AuthConfig] from a
    parsed configuration. *)
Definition loaded (config : Config) : AuthConfig :=
  default AuthConfig_init (load_config AuthConfig_init (Some config)).

(** Rules: nobody reads below the root, [bob] reads [/a]. No users. *)
Definition policy_bob : AuthConfig :=
  loaded (mkConfig [mkConfigPath "/" "*" []; mkConfigPath "/a" "bob" ["r"]] []).

(** One user and no rule. *)
Definition policy_alice : AuthConfig :=
  loaded (mkConfig [] [mkConfigUser "alice" "pw"]).

(** Nobody reads [/a]. *)
Definition policy_closed_a : AuthConfig :=
  loaded (mkConfig [mkConfigPath "/a" "*" []] []).

(** The wildcard name registered as a user, and no rule. *)
Definition policy_star_user : AuthConfig :=
  loaded (mkConfig [] [mkConfigUser "*" "secret"]).

(** [/a/b] denies [alice] reading, [/a/b/c] grants it. *)
Definition policy_override : AuthConfig :=
  loaded (mkConfig [mkConfigPath "/a/b" "alice" ["w"];
                    mkConfigPath "/a/b/c" "alice" ["r"]]
            [mkConfigUser "alice" "pw"]).



End Demo.

(** ** Further notions: encoding of credentials, tree names, log queue *)

Section encode.
(** [base64.b64encode(txt.encode('UTF-8')).decode('UTF-8')] *)
Variable b64encode_utf8 : string → string.

Definition encode_http_auth_password (user psw : string) : string :=
  let txt := user ++ ":" ++ psw in
  b64encode_utf8 txt.

End encode.

(** Every node below [p] is named by the segment that leads to it, and
    that segment is a kept one without separator. *)
Definition named_tree (p : PathConfig) : Prop :=
  ∀ items i n, descend p (items ++ [i]) = Some n →
               filename n = i ∧ kept_segment i = true
               ∧ PyStr.contains "/" i = false.

(** Printable ASCII, the characters [json.dumps] leaves in its output. *)
Definition printable (c : ascii) : bool :=
  Nat.leb 32 (nat_of_ascii c) && Nat.leb (nat_of_ascii c) 126.

Fixpoint all_printable (s : string) : bool :=
  match s with
  | EmptyString => true
  | String c rest => printable c && all_printable rest
  end.

(** The permission letter a handler of [AuthSimpleHTTPFileServer] asks
    [check_auth] for. *)
Definition requested_perm (m : Method) : string :=
  match m with
  | PUT => "w"
  | _ => "r"
  end.

(** A handler step that leaves the file system as it found it, however
    it ends. *)
Definition keeps_fs {platform : Platform} {A : Type} (m : H A) : Prop :=
  ∀ st, st_fs (m st).2 = st_fs st.

(** *** The log queue: [FileQueueWrapper] and [PrintThread] *)

Module LogQueue.

(** The queue of the print thread, what it has written to the log file
    and how many of the written entries have been flushed. *)
Record State : Type :=
  mkState { queue : list string; written : list string; flushed : nat }.

(** [FileQueueWrapper.write]: [self.queue.put(data)]. *)
Definition write (data : string) (s : State) : State :=
  mkState (queue s ++ [data]) (written s) (flushed s).

(** One round of the loop of [PrintThread.run]; [None] while
    [queue.get()] waits on an empty queue. *)
Definition run_round (should_flush : bool) (s : State) : option State :=
  match queue s with
  | [] => None
  | data :: rest =>
      let written' := (written s ++ [data])%list in
      Some (mkState rest written'
              (if should_flush then List.length written' else flushed s))
  end.

(** What the threads do, in the order it happens: a handler writes, or
    the print thread is given a round (which waits if nothing is
    queued). *)
Inductive Action : Type :=
  | Write (data : string)
  | Round.

Definition act (should_flush : bool) (s : State) (a : Action) : State :=
  match a with
  | Write data => write data s
  | Round => default s (run_round should_flush s)
  end.

Definition exec (should_flush : bool) (acts : list Action) (s : State) : State :=
  fold_left (act should_flush) acts s.

Fixpoint writes (acts : list Action) : list string :=
  match acts with
  | [] => []
  | Write data :: rest => data :: writes rest
  | Round :: rest => writes rest
  end.

End LogQueue.

(** *** Base64 text, to run [encode_http_auth_password] *)

Module Base64.

Definition b64_char (n : nat) : ascii :=
  if Nat.ltb n 26 then ascii_of_nat (65 + n)
  else if Nat.ltb n 52 then ascii_of_nat (71 + n)
  else if Nat.ltb n 62 then ascii_of_nat (n - 4)
  else if Nat.eqb n 62 then "+"%char else "/"%char.

Fixpoint encode_bytes (l : list ascii) : list ascii :=
  match l with
  | [] => []
  | [a] =>
      let x := nat_of_ascii a in
      [b64_char (x / 4); b64_char ((x mod 4) * 16); "="%char; "="%char]
  | [a; b] =>
      let x := nat_of_ascii a in
      let y := nat_of_ascii b in
      [b64_char (x / 4); b64_char ((x mod 4) * 16 + y / 16);
       b64_char ((y mod 16) * 4); "="%char]
  | a :: b :: c :: rest =>
      let x := nat_of_ascii a in
      let y := nat_of_ascii b in
      let z := nat_of_ascii c in
      b64_char (x / 4) :: b64_char ((x mod 4) * 16 + y / 16)
      :: b64_char ((y mod 16) * 4 + z / 64) :: b64_char (z mod 64)
      :: encode_bytes rest
  end.

Definition b64encode_ascii (txt : string) : string :=
  string_of_list_ascii (encode_bytes (list_ascii_of_string txt)).

End Base64.

(** *** The small platform with a real [os.path.dirname] *)

Module Demo2.

(** Everything before the last separator. *)
Definition parent_of (p : string) : string :=
  PyStr.join "/" (removelast (PyStr.split "/" p)).

Definition platform : Platform :=
  {|
    FS := Demo.fs;
    translate_path := @translate_path Demo.platform;
    relpath := @relpath Demo.platform;
    dirname := parent_of;
    urlsplit := @urlsplit Demo.platform;
    urlunsplit := @urlunsplit Demo.platform;
    isdir := @isdir Demo.platform;
    path_exists := @path_exists Demo.platform;
    open_rb := @open_rb Demo.platform;
    guess_type := @guess_type Demo.platform;
    mtime_string := @mtime_string Demo.platform;
    makedirs := @makedirs Demo.platform;
    open_wb := @open_wb Demo.platform;
    file_write := @file_write Demo.platform;
    rmtree := @rmtree Demo.platform;
    remove := @remove Demo.platform;
    shell_find := @shell_find Demo.platform;
    bytes_decode := @bytes_decode Demo.platform;
    b64decode_utf8 := @b64decode_utf8 Demo.platform;
    int_of_header := @int_of_header Demo.platform;
    wfile_accepts_str := false
  |}.

Definition start : @HState platform := @mkHState platform Demo.storage [] [].

Definition world_all_ok : Startup.World :=
  Startup.mkWorld (λ _, true) (λ _, true) true (λ _ _, true) (λ _, true)
    (λ _, Some (mkConfig [mkConfigPath "/a" "*" []] [mkConfigUser "alice" "pw"])).

Definition world_port_taken : Startup.World :=
  Startup.mkWorld (λ _, true) (λ _, true) true (λ _ _, false) (λ _, true)
    (λ _, Some (mkConfig [mkConfigPath "/a" "*" []] [mkConfigUser "alice" "pw"])).

Definition args_with_config : Startup.Args :=
  Startup.mkArgs "0.0.0.0" 8000%N (Some "access.json") false (Some "server.log")
    true 3 "/srv".

End Demo2.

(** * Properties *)

(** ** Python strings *)

Example split_keeps_empty_pieces :
  PyStr.split "/" "/a//b/" = [""; "a"; ""; "b"; ""].
Proof. reflexivity. Qed.

Example path_items_discards :
  path_items "/a/./b/../c" = ["a"; "b"; "c"].
Proof. reflexivity. Qed.

Lemma split_length (c : ascii) (s : string) :
  List.length (PyStr.split c s) = S (count_char c s).
Proof.
  induction s as [|d s IH]; simpl; [reflexivity|].
  destruct (Ascii.eqb d c); simpl.
  - by rewrite IH.
  - destruct (PyStr.split c s) as [|x xs]; simpl in *; [discriminate|done].
Qed.

Lemma split_two_pieces (c : ascii) (s : string) :
  (∃ a b, PyStr.split c s = [a; b]) ↔ count_char c s = 1.
Proof.
  pose proof (split_length c s) as Hlen. split.
  - intros (a & b & Hab). rewrite Hab in Hlen. simpl in Hlen. lia.
  - intros Hone. rewrite Hone in Hlen.
    destruct (PyStr.split c s) as [|a [|b [|d l]]]; simpl in Hlen; try lia.
    by exists a, b.
Qed.

(** The sample policies are what [load_config] returns on their
    configurations. *)
Example sample_policies_loaded :
  load_config AuthConfig_init
    (Some (mkConfig [mkConfigPath "/" "*" []; mkConfigPath "/a" "bob" ["r"]] []))
  = Some Demo.policy_bob
  ∧ load_config AuthConfig_init (Some (mkConfig [] [mkConfigUser "alice" "pw"]))
    = Some Demo.policy_alice
  ∧ load_config AuthConfig_init (Some (mkConfig [mkConfigPath "/a" "*" []] []))
    = Some Demo.policy_closed_a
  ∧ load_config AuthConfig_init (Some (mkConfig [] [mkConfigUser "*" "secret"]))
    = Some Demo.policy_star_user
  ∧ load_config AuthConfig_init
      (Some (mkConfig [mkConfigPath "/a/b" "alice" ["w"];
                       mkConfigPath "/a/b/c" "alice" ["r"]]
               [mkConfigUser "alice" "pw"]))
    = Some Demo.policy_override.
Proof. repeat split; reflexivity. Qed.

(** ** The access policy *)

Section policy.
Implicit Types (cfg : AuthConfig) (p n : PathConfig) (items : list string).
Implicit Types (path perm user u : string) (psw : option string).

Lemma check_items_fold p items u perm r :
  check_items p items u perm r
  = fold_left (step u perm) (tail (nodes_on_path p items)) r.
Proof.
  revert p r. induction items as [|i rest IH]; intros p r; simpl; [done|].
  destruct (children p !! i) as [c|]; simpl; [|done].
  rewrite IH. by destruct rest.
Qed.

Lemma check_path_as_fold cfg path perm u :
  check_path_as cfg path perm u
  = fold_left (step u perm) (nodes_on_path (root cfg) (PyStr.split "/" path)) true.
Proof.
  unfold check_path_as. rewrite check_items_fold.
  by destruct (PyStr.split "/" path).
Qed.

Lemma fold_no_decision u perm (l : list PathConfig) r :
  Forall (λ n, check_perm (perms n) u perm = None) l →
  fold_left (step u perm) l r = r.
Proof.
  intros Hl. revert r. induction Hl as [|n l Hn _ IH]; intros r; simpl; [done|].
  rewrite IH. unfold step. by rewrite Hn.
Qed.

Lemma fold_deepest u perm (pre post : list PathConfig) n b r :
  check_perm (perms n) u perm = Some b →
  Forall (λ m, check_perm (perms m) u perm = None) post →
  fold_left (step u perm) (pre ++ n :: post) r = b.
Proof.
  intros Hn Hpost. rewrite fold_left_app. simpl.
  rewrite fold_no_decision by done. unfold step. by rewrite Hn.
Qed.

Lemma check_path_for_perm_effective cfg path perm user psw :
  check_path_for_perm cfg path perm user psw
  = match effective_user cfg user psw with
    | None => false
    | Some u => check_path_as cfg path perm u
    end.
Proof.
  unfold check_path_for_perm, effective_user.
  destruct (users cfg !! user) as [stored|]; [|done].
  repeat case_bool_decide; congruence.
Qed.

Lemma check_path_for_perm_resolve cfg path perm user psw :
  check_path_for_perm cfg path perm user psw
  = resolve_items cfg (PyStr.split "/" path) perm user psw.
Proof. by rewrite check_path_for_perm_effective. Qed.

Lemma no_entry_no_decision u perm n :
  no_entry_for u n → check_perm (perms n) u perm = None.
Proof. intros [Hu Hstar]. unfold check_perm. by rewrite Hu, Hstar. Qed.

(** *** Trees without nodes named by a discarded segment *)

Lemma clean_tree_unfold p :
  clean_tree p ↔
  (∀ s, kept_segment s = false → children p !! s = None)
  ∧ (∀ i c, children p !! i = Some c → clean_tree c).
Proof.
  split.
  - intros Hp. split.
    + intros s Hs. by apply (Hp [] p s).
    + intros i c Hc items n s Hn Hs.
      apply (Hp (i :: items) n s); [|done]. simpl. by rewrite Hc.
  - intros [Hhere Hbelow] items n s Hn Hs.
    destruct items as [|i rest]; simpl in Hn.
    + injection Hn as <-. by apply Hhere.
    + destruct (children p !! i) as [c|] eqn:Hc; [|done].
      by apply (Hbelow i c Hc rest n s).
Qed.

Lemma clean_tree_perms p ps :
  clean_tree p → clean_tree (mkPathConfig (filename p) ps (children p)).
Proof. rewrite !clean_tree_unfold. simpl. done. Qed.

Lemma PathConfig_init_clean i c :
  PathConfig_init i = Some c → clean_tree c.
Proof.
  unfold PathConfig_init. destruct (PyStr.contains "/" i); [done|].
  intros [= <-]. apply clean_tree_unfold. simpl. split; [done|].
  intros j c. by rewrite lookup_empty.
Qed.

Lemma add_items_clean items p p' user ps :
  Forall (λ s, kept_segment s = true) items →
  clean_tree p → add_items p items user ps = Some p' → clean_tree p'.
Proof.
  intros Hitems. revert p p'.
  induction Hitems as [|i rest Hi _ IH]; intros p p' Hp Hadd; simpl in Hadd.
  - injection Hadd as <-. by apply clean_tree_perms.
  - apply clean_tree_unfold in Hp as Hp'. destruct Hp' as [Hhere Hbelow].
    destruct (children p !! i) as [c|] eqn:Hc; simpl in Hadd.
    + destruct (add_items c rest user ps) as [c'|] eqn:Hc'; simpl in Hadd; [|done].
      injection Hadd as <-. apply clean_tree_unfold. simpl. split.
      * intros s Hs. rewrite lookup_insert_ne; [by apply Hhere|congruence].
      * intros j d. rewrite lookup_insert_Some. intros [[_ <-]|[_ Hd]].
        -- apply (IH c); [by apply (Hbelow i)|done].
        -- by apply (Hbelow j).
    + destruct (PathConfig_init i) as [c|] eqn:Hinit; simpl in Hadd; [|done].
      destruct (add_items c rest user ps) as [c'|] eqn:Hc'; simpl in Hadd; [|done].
      injection Hadd as <-. apply clean_tree_unfold. simpl. split.
      * intros s Hs. rewrite lookup_insert_ne; [by apply Hhere|congruence].
      * intros j d. rewrite lookup_insert_Some. intros [[_ <-]|[_ Hd]].
        -- apply (IH c); [by apply (PathConfig_init_clean i)|done].
        -- by apply (Hbelow j).
Qed.

Lemma path_items_kept path :
  Forall (λ s, kept_segment s = true) (path_items path).
Proof.
  unfold path_items. apply Forall_forall. intros s Hs.
  apply list_elem_of_In, filter_In in Hs. by destruct Hs.
Qed.

Lemma add_path_config_clean cfg cfg' path user ps :
  clean_tree (root cfg) → add_path_config cfg path user ps = Some cfg' →
  clean_tree (root cfg').
Proof.
  unfold add_path_config. intros Hcfg Hadd.
  destruct (add_items (root cfg) (path_items path) user ps) as [r|] eqn:Hr;
    simpl in Hadd; [|done].
  injection Hadd as <-. simpl.
  apply (add_items_clean (path_items path) (root cfg) r user ps); [|done..].
  apply path_items_kept.
Qed.

End policy.

Section loaded_policy.
Implicit Types (cfg : AuthConfig) (p : PathConfig) (items : list string).

Lemma AuthConfig_init_clean : clean_tree (root AuthConfig_init).
Proof.
  apply clean_tree_unfold. simpl. split; [done|].
  intros i c. by rewrite lookup_empty.
Qed.

Lemma load_paths_clean (l : list ConfigPath) cfg cfg' :
  clean_tree (root cfg) → load_paths cfg l = Some cfg' → clean_tree (root cfg').
Proof.
  revert cfg. induction l as [|cp rest IH]; intros cfg Hcfg Hload; simpl in Hload.
  - by injection Hload as <-.
  - destruct (add_path_config cfg (cp_path cp) (cp_user cp) (cp_perms cp))
      as [cfg1|] eqn:Hadd; simpl in Hload; [|done].
    apply (IH cfg1); [|done]. by eapply add_path_config_clean.
Qed.

Lemma load_users_root (l : list ConfigUser) cfg :
  root (load_users cfg l) = root cfg.
Proof.
  revert cfg. induction l as [|cu rest IH]; intros cfg; simpl; [done|].
  by rewrite IH.
Qed.

(** Loading a configuration keeps the tree free of nodes named by a
    discarded segment. *)
Lemma load_config_clean cfg cfg' (parsed : option Config) :
  clean_tree (root cfg) → load_config cfg parsed = Some cfg' →
  clean_tree (root cfg').
Proof.
  intros Hcfg. unfold load_config. destruct parsed as [config|]; [|done].
  destruct (load_paths cfg (config_paths config)) as [cfg1|] eqn:Hload; [|done].
  intros [= <-]. rewrite load_users_root. by eapply load_paths_clean.
Qed.

(** On such a tree the walk ends at the first discarded segment. *)
Lemma check_items_clean p items (u perm : string) (r : bool) :
  clean_tree p →
  check_items p items u perm r
  = check_items p (segments_before_discarded items) u perm r.
Proof.
  revert p r. induction items as [|i rest IH]; intros p r Hp; simpl; [done|].
  apply clean_tree_unfold in Hp as [Hhere Hbelow].
  destruct (kept_segment i) eqn:Hi; simpl.
  - destruct (children p !! i) as [c|] eqn:Hc; [|done].
    apply IH. by apply (Hbelow i).
  - by rewrite (Hhere i Hi).
Qed.

Lemma segments_all_kept items :
  Forall (λ s, kept_segment s = true) items →
  segments_before_discarded items = items
  ∧ List.filter kept_segment items = items.
Proof.
  induction 1 as [|i rest Hi _ [IH1 IH2]]; simpl; [done|].
  rewrite Hi. by rewrite IH1, IH2.
Qed.

End loaded_policy.

(** C6 (per-node lookup precedence): an entry for the user decides and
    the ["*"] entry is then ignored; without it the ["*"] entry decides;
    with neither the node gives no decision and [combine_perm] keeps the
    accumulated result. *)
Theorem check_perm_precedence (ps : gmap string (list string))
    (user perm : string) :
  (∀ l, ps !! user = Some l →
        check_perm ps user perm = Some (bool_decide (perm ∈ l))
        ∧ ∀ w, user ≠ "*" →
               check_perm (<["*" := w]> ps) user perm = check_perm ps user perm)
  ∧ (∀ l, ps !! user = None → ps !! "*" = Some l →
          check_perm ps user perm = Some (bool_decide (perm ∈ l)))
  ∧ (ps !! user = None → ps !! "*" = None →
     check_perm ps user perm = None
     ∧ ∀ prev, combine_perm prev (check_perm ps user perm) = prev).
Proof.
  unfold check_perm, PyStr.mem. split; [|split].
  - intros l Huser. split.
    + rewrite Huser. by case_bool_decide.
    + intros w Hne. rewrite lookup_insert_ne by done. by rewrite Huser.
  - intros l Huser Hstar. rewrite Huser, Hstar. by case_bool_decide.
  - intros Huser Hstar. rewrite Huser, Hstar. done.
Qed.

Lemma check_perm_precedence_witness :
  let ps : gmap string (list string) := {[ "alice" := ["r"]; "*" := ["w"] ]} in
  check_perm ps "alice" "r" = Some true
  ∧ check_perm ps "alice" "w" = Some false
  ∧ check_perm ps "bob" "w" = Some true
  ∧ check_perm (∅ : gmap string (list string)) "bob" "w" = None.
Proof.
  intros ps.
  destruct (check_perm_precedence ps "alice" "r") as [Huser _].
  destruct (check_perm_precedence ps "alice" "w") as [Huser' _].
  destruct (check_perm_precedence ps "bob" "w") as (_ & Hstar & _).
  destruct (check_perm_precedence ∅ "bob" "w") as (_ & _ & Hnone).
  split; [exact (proj1 (Huser ["r"] eq_refl))|].
  split; [exact (proj1 (Huser' ["r"] eq_refl))|].
  split; [exact (Hstar ["w"] eq_refl eq_refl)|].
  exact (proj1 (Hnone eq_refl eq_refl)).
Defined.

(** C4 (credential rejection): a known user with a password other than
    the stored one is refused, whatever the path, the permission and the
    rules. *)
Theorem wrong_password_denied (cfg : AuthConfig) (path perm user stored : string)
    (psw : option string) :
  users cfg !! user = Some stored →
  psw ≠ Some stored →
  check_path_for_perm cfg path perm user psw = false.
Proof.
  intros Hknown Hpsw. unfold check_path_for_perm. rewrite Hknown.
  case_bool_decide as Hd; [done|]. by destruct Hpsw.
Qed.

Lemma wrong_password_denied_witness :
  check_path_for_perm Demo.policy_override "a/b/c" "r" "alice" (Some "guess") = false.
Proof.
  apply (wrong_password_denied Demo.policy_override "a/b/c" "r" "alice" "pw").
  - reflexivity.
  - discriminate.
Defined.

(** C1 (override hierarchy), as the code has it: once the credentials are
    accepted and the query is resolved under the name [u] (the user when
    known, ["*"] otherwise), and an ancestor and a deeper node among the
    nodes the tree has along the ['/']-separated segments of the path
    both decide for [u], the answer is the decision of the deepest node
    that decides, whatever the shallower ones say. *)
Theorem deepest_explicit_rule_wins (cfg : AuthConfig) (path perm user u : string)
    (psw : option string) (pre mid post : list PathConfig) (anc deep : PathConfig)
    (ba bd : bool) :
  effective_user cfg user psw = Some u →
  nodes_on_path (root cfg) (PyStr.split "/" path)
    = (pre ++ anc :: mid ++ deep :: post)%list →
  check_perm (perms anc) u perm = Some ba →
  check_perm (perms deep) u perm = Some bd →
  Forall (λ n, check_perm (perms n) u perm = None) post →
  check_path_for_perm cfg path perm user psw = bd.
Proof.
  intros Hu Hnodes _ Hdeep Hpost.
  rewrite check_path_for_perm_effective, Hu, check_path_as_fold, Hnodes.
  replace (pre ++ anc :: mid ++ deep :: post)%list
    with ((pre ++ anc :: mid) ++ deep :: post)%list
    by (by rewrite <- app_assoc).
  by apply fold_deepest.
Qed.

Lemma deepest_explicit_rule_wins_witness :
  check_path_for_perm Demo.policy_override "a/b/c" "r" "alice" (Some "pw") = true
  ∧ check_path_for_perm Demo.policy_override "a/b/x" "r" "alice" (Some "pw") = false.
Proof.
  split.
  - eapply (deepest_explicit_rule_wins Demo.policy_override "a/b/c" "r" "alice"
              "alice" (Some "pw") [_; _] [] [] _ _ false true).
    + reflexivity.
    + reflexivity.
    + reflexivity.
    + reflexivity.
    + constructor.
  - reflexivity.
Defined.

(** C1 as stated fails: the rule that grants [bob] reading at [/a] is the
    deepest explicit decision for [bob], below a ["*"] rule at the root
    that denies it, yet [bob], who is no registered user, is resolved as
    ["*"] and refused; and a registered user with a wrong password is
    refused below a rule that grants. *)
Lemma deepest_rule_not_returned :
  (∃ anc deep,
     nodes_on_path (root Demo.policy_bob) (PyStr.split "/" "a") = [anc; deep]
     ∧ check_perm (perms anc) "bob" "r" = Some false
     ∧ check_perm (perms deep) "bob" "r" = Some true
     ∧ check_path_for_perm Demo.policy_bob "a" "r" "bob" None = false)
  ∧ (∃ n0 n1 n2 n3,
       nodes_on_path (root Demo.policy_override) (PyStr.split "/" "a/b/c")
         = [n0; n1; n2; n3]
       ∧ check_perm (perms n2) "alice" "r" = Some false
       ∧ check_perm (perms n3) "alice" "r" = Some true
       ∧ check_path_for_perm Demo.policy_override "a/b/c" "r" "alice"
           (Some "guess") = false).
Proof.
  split.
  - eexists _, _. split; [reflexivity|]. repeat split; reflexivity.
  - eexists _, _, _, _. split; [reflexivity|]. repeat split; reflexivity.
Qed.

(** C5 (default-allow), as the code has it: when the credentials are
    accepted and no node along the path has an entry for the name the
    query is resolved under nor for ["*"], the answer is [true], for
    every permission. *)
Theorem default_allow (cfg : AuthConfig) (path perm user u : string)
    (psw : option string) :
  effective_user cfg user psw = Some u →
  Forall (no_entry_for u) (nodes_on_path (root cfg) (PyStr.split "/" path)) →
  check_path_for_perm cfg path perm user psw = true.
Proof.
  intros Hu Hnone.
  rewrite check_path_for_perm_effective, Hu, check_path_as_fold.
  apply fold_no_decision. eapply Forall_impl; [exact Hnone|].
  intros n Hn. by apply no_entry_no_decision.
Qed.

Lemma default_allow_witness :
  check_path_for_perm Demo.policy_alice "a/b" "w" "alice" (Some "pw") = true
  ∧ check_path_for_perm Demo.policy_alice "a/b" "w" "carol" None = true.
Proof.
  split.
  - apply (default_allow Demo.policy_alice "a/b" "w" "alice" "alice" (Some "pw")).
    + reflexivity.
    + repeat constructor.
  - apply (default_allow Demo.policy_alice "a/b" "w" "carol" "*" None).
    + reflexivity.
    + repeat constructor.
Defined.

(** C5 as stated fails: with no rule at all, a registered user who
    supplies a wrong password is refused. *)
Lemma default_allow_wrong_password :
  Forall (no_entry_for "alice")
    (nodes_on_path (root Demo.policy_alice) (PyStr.split "/" "a"))
  ∧ check_path_for_perm Demo.policy_alice "a" "r" "alice" (Some "guess") = false.
Proof. split; [repeat constructor|reflexivity]. Qed.

(** C2, as the code has it: [check_path_for_perm] splits the query path
    at ['/'] and discards nothing.  On a tree in which no node is named
    by an empty, [.] or [..] segment (every loaded policy has such a
    tree) the query is resolved along the segments that come before the
    first such segment; on a path without one the result is that of
    resolution along the normalised segments. *)
Theorem query_path_not_normalised (cfg : AuthConfig) (path perm user : string)
    (psw : option string) :
  clean_tree (root cfg) →
  check_path_for_perm cfg path perm user psw
  = resolve_items cfg (segments_before_discarded (PyStr.split "/" path))
      perm user psw
  ∧ (Forall (λ s, kept_segment s = true) (PyStr.split "/" path) →
     check_path_for_perm cfg path perm user psw
     = spec_IsAllowed cfg path perm user psw).
Proof.
  intros Hclean. rewrite check_path_for_perm_resolve. split.
  - unfold resolve_items. destruct (effective_user cfg user psw); [|done].
    by apply check_items_clean.
  - intros Hkept. unfold resolve_items, spec_IsAllowed, path_items.
    by rewrite (proj2 (segments_all_kept _ Hkept)).
Qed.

Lemma query_path_not_normalised_witness :
  check_path_for_perm Demo.policy_closed_a "a//b" "r" "*" None
  = resolve_items Demo.policy_closed_a ["a"] "r" "*" None
  ∧ check_path_for_perm Demo.policy_closed_a "a/b" "r" "*" None
    = spec_IsAllowed Demo.policy_closed_a "a/b" "r" "*" None.
Proof.
  assert (clean_tree (root Demo.policy_closed_a)) as Hclean.
  { apply (load_config_clean AuthConfig_init Demo.policy_closed_a
             (Some (mkConfig [mkConfigPath "/a" "*" []] [])));
      [apply AuthConfig_init_clean|reflexivity]. }
  split.
  - exact (proj1 (query_path_not_normalised Demo.policy_closed_a "a//b" "r" "*"
                    None Hclean)).
  - apply (query_path_not_normalised Demo.policy_closed_a "a/b" "r" "*" None Hclean).
    repeat constructor.
Defined.

(** C2 as stated fails: the rule that denies reading at [/a] is found by
    the query [a] and missed by the query [/a], whose first segment is
    empty. *)
Lemma leading_slash_query_differs :
  PyStr.split "/" "/a" = [""; "a"]
  ∧ PyStr.join "/" (path_items "/a") = "a"
  ∧ check_path_for_perm Demo.policy_closed_a "/a" "r" "*" None = true
  ∧ check_path_for_perm Demo.policy_closed_a "a" "r" "*" None = false
  ∧ spec_IsAllowed Demo.policy_closed_a "/a" "r" "*" None = false.
Proof. repeat split; reflexivity. Qed.

(** ** The handlers *)

Ltac unfold_handler :=
  unfold serve, handle_request, AuthSimpleHTTPFileServer.handle,
    AuthSimpleHTTPFileServer.do_HEAD, AuthSimpleHTTPFileServer.do_GET,
    AuthSimpleHTTPFileServer.do_PUT, AuthSimpleHTTPFileServer.do_DELETE,
    AuthSimpleHTTPFileServer.check_auth, AuthSimpleHTTPFileServer.check_auth_impl,
    AuthSimpleHTTPFileServer.do_AUTHHEAD,
    SimpleHTTPFileServer.do_DELETE, SimpleHTTPFileServer.log_headers_if_needed,
    SimpleHTTPFileServer.log_message,
    bind, ret, emit, log, get_fs, set_fs in *.

Section handlers.
Context {platform : Platform}.
Implicit Types (cfg : AuthConfig) (srv : Server) (req : Request) (st : HState).

(** What [do_AUTHHEAD] does to the state: the challenge is appended to
    the output, the file system is left alone. *)
Lemma do_AUTHHEAD_run srv req st :
  ∃ st', AuthSimpleHTTPFileServer.do_AUTHHEAD srv req st = (Ok (), st')
         ∧ st_out st' = (st_out st ++ challenge)%list
         ∧ st_fs st' = st_fs st.
Proof.
  unfold_handler. destruct (srv_log_headers srv); simpl;
    (eexists; split; [reflexivity|]; simpl; split; [|reflexivity]);
    by rewrite <- !app_assoc.
Qed.

Lemma get_auth_malformed req (h : string) :
  headers_get "Authorization" (headers req) = Some h →
  (PyStr.startswith "Basic " h = false
   ∨ ∃ txt, b64decode_utf8 (PyStr.strip (PyStr.drop 6 h)) = Ok txt
            ∧ count_char ":" txt ≠ 1) →
  AuthSimpleHTTPFileServer._get_auth_user_and_psw_from_header req = Ok None.
Proof.
  intros Hh Hbad. unfold AuthSimpleHTTPFileServer._get_auth_user_and_psw_from_header.
  rewrite Hh. destruct (PyStr.startswith "Basic " h) eqn:Hbasic; cbn [negb]; [|done].
  destruct Hbad as [|(txt & Htxt & Hcolons)]; [done|].
  unfold decode_http_auth_password. rewrite Htxt.
  destruct (PyStr.split ":" txt) as [|a [|b [|c l]]] eqn:Hsplit; try done.
  destruct Hcolons. apply (split_two_pieces ":" txt). by exists a, b.
Qed.

Lemma check_auth_impl_malformed cfg req (h perm : string) st :
  headers_get "Authorization" (headers req) = Some h →
  (PyStr.startswith "Basic " h = false
   ∨ ∃ txt, b64decode_utf8 (PyStr.strip (PyStr.drop 6 h)) = Ok txt
            ∧ count_char ":" txt ≠ 1) →
  AuthSimpleHTTPFileServer.check_auth_impl cfg req perm st = (Ok false, st).
Proof.
  intros Hh Hbad. unfold_handler.
  destruct (PyStr.startswith ".." _); [done|].
  by rewrite (get_auth_malformed req h Hh Hbad).
Qed.

End handlers.

Section handler_claims.
Context {platform : Platform}.
Implicit Types (cfg : AuthConfig) (srv : Server) (req : Request) (st : HState).

(** C8 (fail-closed on malformed credentials), as the code has it: for
    every request whose Authorization header is present and does not
    start with [Basic ], or whose decoded text does not hold exactly one
    colon, [check_auth] fails for every permission and sends the 401
    challenge; for every such HEAD, GET or PUT request the whole response
    is that challenge: the operation is not run and the file system is
    left alone. *)
Theorem malformed_credentials_denied cfg srv req (h : string) st :
  headers_get "Authorization" (headers req) = Some h →
  (PyStr.startswith "Basic " h = false
   ∨ ∃ txt, b64decode_utf8 (PyStr.strip (PyStr.drop 6 h)) = Ok txt
            ∧ count_char ":" txt ≠ 1) →
  (∀ perm, ∃ st', AuthSimpleHTTPFileServer.check_auth cfg srv req perm st
                  = (Ok false, st')
                  ∧ st_out st' = (st_out st ++ challenge)%list)
  ∧ (command req ≠ DELETE →
     ∃ st', AuthSimpleHTTPFileServer.handle cfg srv req st = (Ok (), st')
            ∧ st_out st' = (st_out st ++ challenge)%list
            ∧ st_fs st' = st_fs st).
Proof.
  intros Hh Hbad.
  assert (∀ perm, ∃ st', AuthSimpleHTTPFileServer.check_auth cfg srv req perm st
                         = (Ok false, st')
                         ∧ st_out st' = (st_out st ++ challenge)%list
                         ∧ st_fs st' = st_fs st) as Hcheck.
  { intros perm. unfold AuthSimpleHTTPFileServer.check_auth, bind at 1.
    rewrite (check_auth_impl_malformed cfg req h perm st Hh Hbad). cbn [negb].
    destruct (do_AUTHHEAD_run srv req st) as (st' & Hrun & Hout & Hfs).
    exists st'. unfold bind, ret. by rewrite Hrun. }
  split.
  - intros perm. destruct (Hcheck perm) as (st' & Hrun & Hout & _). by exists st'.
  - intros Hmethod.
    unfold AuthSimpleHTTPFileServer.handle, AuthSimpleHTTPFileServer.do_HEAD,
      AuthSimpleHTTPFileServer.do_GET, AuthSimpleHTTPFileServer.do_PUT.
    destruct (command req); try done.
    + destruct (Hcheck "r") as (st' & Hrun & Hout & Hfs).
      exists st'. unfold bind, ret. by rewrite Hrun.
    + destruct (Hcheck "r") as (st' & Hrun & Hout & Hfs).
      exists st'. unfold bind, ret. by rewrite Hrun.
    + destruct (Hcheck "w") as (st' & Hrun & Hout & Hfs).
      exists st'. unfold bind, ret. by rewrite Hrun.
Qed.

(** C7 (anonymous requests), as the code has it: without an
    Authorization header the identity is [("*", None)], and when ["*"] is
    not itself a registered user the verdict is [False] if the path of
    the target relative to the storage root begins with two dots, and
    otherwise the resolution of that path for ["*"], with the [l]
    permission in place of the requested one on a directory; no password
    is compared. *)
Theorem anonymous_request_resolution cfg req (perm : string) st :
  headers_get "Authorization" (headers req) = None →
  users cfg !! "*" = None →
  AuthSimpleHTTPFileServer._get_auth_user_and_psw_from_header req
  = Ok (Some ("*", None))
  ∧ AuthSimpleHTTPFileServer.check_auth_impl cfg req perm st
    = (Ok (if PyStr.startswith ".." (relpath (translate_path (req_path req)))
           then false
           else check_path_as cfg (relpath (translate_path (req_path req)))
                  (if isdir (st_fs st) (relpath (translate_path (req_path req)))
                   then "l" else perm) "*"), st).
Proof.
  intros Hnone Hstar.
  assert (AuthSimpleHTTPFileServer._get_auth_user_and_psw_from_header req
          = Ok (Some ("*", None))) as Hid.
  { unfold AuthSimpleHTTPFileServer._get_auth_user_and_psw_from_header.
    by rewrite Hnone. }
  split; [done|].
  unfold AuthSimpleHTTPFileServer.check_auth_impl, bind, ret, get_fs.
  destruct (PyStr.startswith ".." (relpath (translate_path (req_path req))));
    [done|].
  rewrite Hid. unfold check_path_for_perm. by rewrite Hstar.
Qed.

(** C3 (DELETE is not gated): two DELETE requests for the same path,
    handled by the authenticating class from the same file system, get
    the same response and leave the same file system, whatever their
    headers and whatever the policies; the method run is the inherited
    one and nothing it sends is a 401. *)
Theorem delete_not_gated cfg1 cfg2 (lh1 lh2 : bool) req1 req2 (fs : FS) :
  command req1 = DELETE →
  command req2 = DELETE →
  req_path req1 = req_path req2 →
  (serve (mkServer lh1 (Some cfg1)) req1 fs).1
  = (serve (mkServer lh2 (Some cfg2)) req2 fs).1
  ∧ st_out (serve (mkServer lh1 (Some cfg1)) req1 fs).2
    = st_out (serve (mkServer lh2 (Some cfg2)) req2 fs).2
  ∧ st_fs (serve (mkServer lh1 (Some cfg1)) req1 fs).2
    = st_fs (serve (mkServer lh2 (Some cfg2)) req2 fs).2
  ∧ serve (mkServer lh1 (Some cfg1)) req1 fs
    = SimpleHTTPFileServer.do_DELETE (mkServer lh1 (Some cfg1)) req1
        (mkHState fs [] [])
  ∧ Forall (λ o, o ≠ send_response HTTPStatus.UNAUTHORIZED
                 ∧ ∀ m, o ≠ send_error HTTPStatus.UNAUTHORIZED m)
      (st_out (serve (mkServer lh1 (Some cfg1)) req1 fs).2).
Proof.
  intros Hm1 Hm2 Hpath.
  unfold serve, handle_request, AuthSimpleHTTPFileServer.handle,
    AuthSimpleHTTPFileServer.do_DELETE. cbn [srv_auth_config].
  rewrite Hm1, Hm2.
  unfold SimpleHTTPFileServer.do_DELETE, SimpleHTTPFileServer.log_headers_if_needed,
    SimpleHTTPFileServer.log_message, bind, ret, emit, log, get_fs, set_fs.
  cbn [srv_log_headers]. rewrite Hpath.
  destruct lh1, lh2; cbn [st_fs st_out st_log fst snd];
    destruct (path_exists fs (translate_path (req_path req2)));
    cbn [negb st_fs st_out st_log fst snd];
    try (repeat split; try done; repeat constructor; done);
    destruct (isdir fs (translate_path (req_path req2)));
    [ destruct (rmtree fs (translate_path (req_path req2))) as [[[]|e] fs']
    | destruct (remove fs (translate_path (req_path req2))) as [[[]|e] fs']
    | destruct (rmtree fs (translate_path (req_path req2))) as [[[]|e] fs']
    | destruct (remove fs (translate_path (req_path req2))) as [[[]|e] fs']
    | destruct (rmtree fs (translate_path (req_path req2))) as [[[]|e] fs']
    | destruct (remove fs (translate_path (req_path req2))) as [[[]|e] fs']
    | destruct (rmtree fs (translate_path (req_path req2))) as [[[]|e] fs']
    | destruct (remove fs (translate_path (req_path req2))) as [[[]|e] fs'] ];
    cbn [st_fs st_out st_log fst snd];
    repeat split; try done; repeat constructor; done.
Qed.

End handler_claims.

Lemma malformed_credentials_denied_witness :
  (∃ st', AuthSimpleHTTPFileServer.handle (platform := Demo.platform)
            Demo.policy_alice (mkServer false (Some Demo.policy_alice))
            (Demo.request GET "/d/a" (Some "Bearer abc"))
            Demo.start = (Ok (), st')
          ∧ st_out st' = challenge ∧ st_fs st' = Demo.storage)
  ∧ (∃ st', AuthSimpleHTTPFileServer.handle (platform := Demo.platform)
              Demo.policy_alice (mkServer false (Some Demo.policy_alice))
              (Demo.request PUT "/d/a" (Some "Basic YTpiOmM="))
              Demo.start = (Ok (), st')
            ∧ st_out st' = challenge ∧ st_fs st' = Demo.storage).
Proof.
  split.
  - apply (malformed_credentials_denied (platform := Demo.platform)
             Demo.policy_alice (mkServer false (Some Demo.policy_alice))
             (Demo.request GET "/d/a" (Some "Bearer abc")) "Bearer abc"
             Demo.start).
    + reflexivity.
    + left. reflexivity.
    + discriminate.
  - apply (malformed_credentials_denied (platform := Demo.platform)
             Demo.policy_alice (mkServer false (Some Demo.policy_alice))
             (Demo.request PUT "/d/a" (Some "Basic YTpiOmM=")) "Basic YTpiOmM="
             Demo.start).
    + reflexivity.
    + right. exists "a:b:c". split; [reflexivity|]. simpl. lia.
    + discriminate.
Defined.

(** C8 as stated fails for DELETE: a request with a header of another
    scheme is not challenged, the file is removed and the answer is
    200. *)
Lemma malformed_credentials_delete_served :
  headers_get "Authorization"
    (headers (Demo.request DELETE "/d/a" (Some "Bearer abc"))) = Some "Bearer abc"
  ∧ PyStr.startswith "Basic " "Bearer abc" = false
  ∧ st_out (serve (platform := Demo.platform)
              (mkServer false (Some Demo.policy_alice))
              (Demo.request DELETE "/d/a" (Some "Bearer abc")) Demo.storage).2
    = [send_response 200; end_headers]
  ∧ Demo.files (st_fs (serve (platform := Demo.platform)
                         (mkServer false (Some Demo.policy_alice))
                         (Demo.request DELETE "/d/a" (Some "Bearer abc"))
                         Demo.storage).2) !! "d/a" = None.
Proof. repeat split; reflexivity. Qed.

Lemma anonymous_request_resolution_witness :
  AuthSimpleHTTPFileServer.check_auth_impl (platform := Demo.platform)
    Demo.policy_closed_a (Demo.request GET "/a" None) "r"
    Demo.start
  = (Ok false, Demo.start)
  ∧ AuthSimpleHTTPFileServer.check_auth_impl (platform := Demo.platform)
      Demo.policy_closed_a (Demo.request GET "/d/a" None) "r"
      Demo.start
    = (Ok true, Demo.start)
  ∧ AuthSimpleHTTPFileServer.check_auth_impl (platform := Demo.platform)
      Demo.policy_closed_a (Demo.request GET "/..notes" None) "r"
      Demo.start
    = (Ok false, Demo.start).
Proof.
  split; [|split].
  - apply (anonymous_request_resolution (platform := Demo.platform)
             Demo.policy_closed_a (Demo.request GET "/a" None) "r"
             Demo.start); reflexivity.
  - apply (anonymous_request_resolution (platform := Demo.platform)
             Demo.policy_closed_a (Demo.request GET "/d/a" None) "r"
             Demo.start); reflexivity.
  - apply (anonymous_request_resolution (platform := Demo.platform)
             Demo.policy_closed_a (Demo.request GET "/..notes" None) "r"
             Demo.start); reflexivity.
Defined.

(** C7 as stated fails: when ["*"] is registered as a user, the identity
    of a request without header, [("*", None)], is compared with the
    password stored for ["*"] and refused, although the rules allow ["*"]
    and the stored password would be accepted. *)
Lemma anonymous_checked_against_star_password :
  AuthSimpleHTTPFileServer._get_auth_user_and_psw_from_header
    (platform := Demo.platform) (Demo.request GET "/d/a" None)
  = Ok (Some ("*", None))
  ∧ users Demo.policy_star_user !! "*" = Some "secret"
  ∧ AuthSimpleHTTPFileServer.check_auth_impl (platform := Demo.platform)
      Demo.policy_star_user (Demo.request GET "/d/a" None) "r"
      Demo.start
    = (Ok false, Demo.start)
  ∧ check_path_as Demo.policy_star_user "d/a" "r" "*" = true
  ∧ check_path_for_perm Demo.policy_star_user "d/a" "r" "*" (Some "secret") = true.
Proof. repeat split; reflexivity. Qed.

Lemma delete_not_gated_witness :
  st_out (serve (platform := Demo.platform)
            (mkServer false (Some Demo.policy_closed_a))
            (Demo.request DELETE "/d/a" None) Demo.storage).2
  = st_out (serve (platform := Demo.platform)
              (mkServer true (Some Demo.policy_alice))
              (Demo.request DELETE "/d/a" (Some "Basic YWxpY2U6cHc="))
              Demo.storage).2
  ∧ st_fs (serve (platform := Demo.platform)
             (mkServer false (Some Demo.policy_closed_a))
             (Demo.request DELETE "/d/a" None) Demo.storage).2
    = st_fs (serve (platform := Demo.platform)
               (mkServer true (Some Demo.policy_alice))
               (Demo.request DELETE "/d/a" (Some "Basic YWxpY2U6cHc="))
               Demo.storage).2.
Proof.
  destruct (delete_not_gated (platform := Demo.platform)
              Demo.policy_closed_a Demo.policy_alice false true
              (Demo.request DELETE "/d/a" None)
              (Demo.request DELETE "/d/a" (Some "Basic YWxpY2U6cHc="))
              Demo.storage eq_refl eq_refl eq_refl)
    as (_ & Hout & Hfs & _).
  split; [exact Hout|exact Hfs].
Defined.

(** ** Directory listings *)

Section listing.
Context {platform : Platform}.

(** The body of a directory listing is the JSON text of the lines [find]
    printed, in the order it printed them. *)
Lemma list_directory_run (path out txt : string) (fs' : FS) (st : HState) :
  shell_find (st_fs st) path = (Ok out, fs') →
  bytes_decode out = Ok txt →
  SimpleHTTPFileServer.list_directory path st
  = (Ok (Some (json_dumps
                 (PyStr.split (ascii_of_nat 10) (PyStr.strip txt)) true)),
     mkHState fs'
       (st_out st ++
        [send_response 200;
         send_header "Content-type" "text/json; charset=utf-8";
         send_header "Content-Length"
           (str_of_nat (String.length
              (json_dumps
                 (PyStr.split (ascii_of_nat 10) (PyStr.strip txt)) true)));
         end_headers])
       (st_log st)).
Proof.
  intros Hfind Hdecode.
  unfold SimpleHTTPFileServer.list_directory, SimpleHTTPFileServer._list_files,
    bind, ret, emit, get_fs, set_fs.
  rewrite Hfind. cbn [st_fs st_out st_log]. rewrite Hdecode.
  cbn [st_fs st_out st_log]. by rewrite <- !app_assoc.
Qed.

(** C9 (listing of a directory) on the input where the code departs from
    it: a GET on a directory with a trailing slash, under which [find]
    prints [./b] before [./a], is answered 200 with the array in that
    order, [./b] first, although [./a] sorts before [./b]. *)
Theorem listing_in_enumeration_order (srv : Server) (req : Request) (fs fs' : FS)
    (out : string) :
  srv_auth_config srv = None →
  command req = GET →
  isdir fs (translate_path (req_path req)) = true →
  PyStr.endswith_char "/" (url_path (urlsplit (req_path req))) = true →
  shell_find fs (translate_path (req_path req)) = (Ok out, fs') →
  bytes_decode out = Ok ("./b" ++ nl ++ "./a" ++ nl) →
  st_out (serve srv req fs).2
  = [ send_response 200;
      send_header "Content-type" "text/json; charset=utf-8";
      send_header "Content-Length" "14";
      end_headers;
      copyfile ("[" ++ dquote ++ "./b" ++ dquote ++ ", "
                    ++ dquote ++ "./a" ++ dquote ++ "]") ]
  ∧ String.ltb "./a" "./b" = true.
Proof.
  intros Hplain Hget Hdir Hslash Hfind Hdecode. split; [|reflexivity].
  unfold serve, handle_request, SimpleHTTPFileServer_handle.
  rewrite Hplain, Hget.
  unfold SimpleHTTPFileServer.do_GET, SimpleHTTPFileServer.send_head,
    SimpleHTTPFileServer.log_headers_if_needed.
  unfold bind at 1.
  destruct (srv_log_headers srv); unfold log, ret at 1; cbn [st_fs st_out st_log];
    unfold bind at 1; unfold bind at 1; unfold get_fs; cbn [st_fs st_out st_log];
    rewrite Hdir, Hslash; cbn [negb];
    rewrite (list_directory_run _ out ("./b" ++ nl ++ "./a" ++ nl) fs')
      by done;
    reflexivity.
Qed.

End listing.

Lemma listing_in_enumeration_order_witness :
  st_out (serve (platform := Demo.platform) Demo.plain_server
            (Demo.request GET "/d/" None) Demo.storage).2
  = [ send_response 200;
      send_header "Content-type" "text/json; charset=utf-8";
      send_header "Content-Length" "14";
      end_headers;
      copyfile ("[" ++ dquote ++ "./b" ++ dquote ++ ", "
                    ++ dquote ++ "./a" ++ dquote ++ "]") ].
Proof.
  apply (listing_in_enumeration_order (platform := Demo.platform)
           Demo.plain_server (Demo.request GET "/d/" None) Demo.storage
           Demo.storage ("./b" ++ nl ++ "./a" ++ nl));
    reflexivity.
Defined.

(** An empty directory is listed as an array holding one empty string. *)
Example listing_of_empty_directory :
  json_dumps (PyStr.split (ascii_of_nat 10) (PyStr.strip "")) true
  = "[" ++ dquote ++ dquote ++ "]".
Proof. reflexivity. Qed.

(** ** Start-up *)

Import Startup.




(** * Further properties of the code *)

(** ** Splitting and joining *)

Lemma split_nonempty (c : ascii) (s : string) : PyStr.split c s ≠ [].
Proof.
  pose proof (split_length c s) as Hlen. intros Hnil. rewrite Hnil in Hlen.
  discriminate.
Qed.

Lemma split_pieces_no_sep (c : ascii) (s : string) :
  Forall (λ x, PyStr.contains c x = false) (PyStr.split c s).
Proof.
  induction s as [|d s IH]; simpl.
  - by repeat constructor.
  - destruct (Ascii.eqb d c) eqn:Hd.
    + by constructor.
    + destruct (PyStr.split c s) as [|x xs]; [by repeat constructor; simpl; rewrite Hd|].
      inversion IH as [|? ? Hx Hxs]; subst. constructor; [|done].
      simpl. by rewrite Hd.
Qed.

Lemma split_no_sep (c : ascii) (s : string) :
  PyStr.contains c s = false → PyStr.split c s = [s].
Proof.
  induction s as [|d s IH]; simpl; [done|].
  destruct (Ascii.eqb d c); simpl; [done|].
  intros Hs. by rewrite (IH Hs).
Qed.

Lemma split_app_sep (c : ascii) (x rest : string) :
  PyStr.contains c x = false →
  PyStr.split c (x ++ String c rest) = x :: PyStr.split c rest.
Proof.
  induction x as [|d x IH]; simpl.
  - intros _. by rewrite Ascii.eqb_refl.
  - destruct (Ascii.eqb d c); simpl; [done|].
    intros Hx. by rewrite (IH Hx).
Qed.

Lemma join_cons (sep x : string) (l : list string) :
  l ≠ [] → PyStr.join sep (x :: l) = x ++ sep ++ PyStr.join sep l.
Proof. by destruct l. Qed.

(** Joining the pieces of a split with the separator gives the
    string back, and no piece holds the separator. *)
Theorem join_split (c : ascii) (s : string) :
  PyStr.join (String c EmptyString) (PyStr.split c s) = s
  ∧ Forall (λ x, PyStr.contains c x = false) (PyStr.split c s).
Proof.
  split; [|apply split_pieces_no_sep].
  induction s as [|d s IH]; [done|].
  pose proof (split_nonempty c s) as Hne. cbn [PyStr.split].
  destruct (Ascii.eqb d c) eqn:Hd.
  - apply Ascii.eqb_eq in Hd as ->.
    rewrite join_cons by done. rewrite IH. reflexivity.
  - destruct (PyStr.split c s) as [|x xs] eqn:Hsplit; [done|].
    destruct xs as [|y ys].
    + simpl in *. by rewrite IH.
    + rewrite join_cons by done. rewrite join_cons in IH by done.
      rewrite <- IH. reflexivity.
Qed.

(** Splitting the join of separator-free pieces gives the pieces back. *)
Lemma split_join (c : ascii) (l : list string) :
  l ≠ [] → Forall (λ x, PyStr.contains c x = false) l →
  PyStr.split c (PyStr.join (String c EmptyString) l) = l.
Proof.
  intros Hne Hl. induction Hl as [|x l Hx Hl IH]; [done|].
  destruct l as [|y ys].
  - simpl. by apply split_no_sep.
  - rewrite join_cons by done.
    change (x ++ String c "" ++ PyStr.join (String c "") (y :: ys))
      with (x ++ String c (PyStr.join (String c "") (y :: ys))).
    rewrite split_app_sep by done.
    f_equal. by apply IH.
Qed.

(** ** Building the policy *)

Section building.
Implicit Types (cfg : AuthConfig) (p c : PathConfig) (items : list string).
Implicit Types (path perm user : string) (ps : list string).

Lemma path_items_no_separator path :
  Forall (λ s, PyStr.contains "/" s = false) (path_items path).
Proof.
  unfold path_items. apply Forall_forall. intros s Hs.
  apply list_elem_of_In, filter_In in Hs as [Hs _].
  pose proof (split_pieces_no_sep "/" path) as Hall.
  rewrite Forall_forall in Hall. by apply Hall, list_elem_of_In.
Qed.

Lemma add_items_total items p user ps :
  Forall (λ s, PyStr.contains "/" s = false) items →
  is_Some (add_items p items user ps).
Proof.
  intros Hitems. revert p. induction Hitems as [|i rest Hi _ IH]; intros p; simpl.
  - by eexists.
  - assert (∃ c, match children p !! i with
                 | Some c => Some c
                 | None => PathConfig_init i
                 end = Some c) as [c ->].
    { destruct (children p !! i) as [c|]; [by exists c|].
      unfold PathConfig_init. rewrite Hi. by eexists. }
    simpl. destruct (IH c) as [c' ->]. simpl. by eexists.
Qed.

Lemma load_paths_users (l : list ConfigPath) cfg cfg' :
  load_paths cfg l = Some cfg' → users cfg' = users cfg.
Proof.
  revert cfg. induction l as [|cp rest IH]; intros cfg Hload; simpl in Hload.
  - by injection Hload as <-.
  - destruct (add_path_config cfg (cp_path cp) (cp_user cp) (cp_perms cp))
      as [cfg1|] eqn:Hadd; simpl in Hload; [|done].
    rewrite (IH cfg1 Hload). unfold add_path_config in Hadd.
    destruct (add_items _ _ _ _); simpl in Hadd; [|done].
    by injection Hadd as <-.
Qed.

(** X1: adding a rule never raises, whatever the path: the segments come
    from a split at the separator, so the constructor of [PathConfig]
    never sees one; and a list of rules is always loaded to its end. *)
Theorem add_path_config_never_raises :
  (∀ cfg path user ps, is_Some (add_path_config cfg path user ps))
  ∧ (∀ (l : list ConfigPath) cfg, is_Some (load_paths cfg l)).
Proof.
  assert (∀ cfg path user ps, is_Some (add_path_config cfg path user ps)) as Hadd.
  { intros cfg path user ps. unfold add_path_config.
    destruct (add_items_total (path_items path) (root cfg) user ps
                (path_items_no_separator path)) as [r ->].
    simpl. by eexists. }
  split; [done|].
  induction l as [|cp rest IH]; intros cfg; simpl; [by eexists|].
  destruct (Hadd cfg (cp_path cp) (cp_user cp) (cp_perms cp)) as [cfg1 ->].
  simpl. apply IH.
Qed.

Lemma add_items_decides items p p' user ps perm (r : bool) :
  add_items p items user ps = Some p' →
  check_items p' items user perm (combine_perm r (check_perm (perms p') user perm))
  = bool_decide (perm ∈ ps).
Proof.
  revert p p' r. induction items as [|i rest IH]; intros p p' r Hadd; simpl in Hadd.
  - injection Hadd as <-. simpl. unfold check_perm, PyStr.mem.
    rewrite lookup_insert_eq. by case_bool_decide.
  - destruct (match children p !! i with
              | Some c => Some c
              | None => PathConfig_init i
              end) as [c|]; simpl in Hadd; [|done].
    destruct (add_items c rest user ps) as [c'|] eqn:Hc'; simpl in Hadd; [|done].
    injection Hadd as <-. simpl. rewrite lookup_insert_eq.
    by apply (IH c).
Qed.

(** X2: a rule decides at its own path.  After [add_path_config] with
    the permissions [ps], a query whose segments are those of the rule,
    resolved under the name of the rule, is answered by whether the
    permission is in [ps], whatever the rules above say. *)
Theorem rule_decides_at_its_path cfg cfg' path q user quser ps perm
    (psw : option string) :
  add_path_config cfg path user ps = Some cfg' →
  effective_user cfg quser psw = Some user →
  PyStr.split "/" q = path_items path →
  check_path_for_perm cfg' q perm quser psw = bool_decide (perm ∈ ps).
Proof.
  intros Hadd Hu Hq. unfold add_path_config in Hadd.
  destruct (add_items (root cfg) (path_items path) user ps) as [r|] eqn:Hr;
    simpl in Hadd; [|done].
  injection Hadd as <-.
  rewrite check_path_for_perm_effective.
  unfold effective_user in *. cbn [users]. rewrite Hu.
  unfold check_path_as. cbn [root]. rewrite Hq.
  by apply (add_items_decides _ (root cfg)).
Qed.

Lemma add_items_twice items p user ps1 ps2 :
  (add_items p items user ps1 ≫= λ p1, add_items p1 items user ps2)
  = add_items p items user ps2.
Proof.
  revert p. induction items as [|i rest IH]; intros p; simpl.
  - by rewrite insert_insert_eq.
  - destruct (match children p !! i with
              | Some c => Some c
              | None => PathConfig_init i
              end) as [c|]; simpl; [|done].
    specialize (IH c).
    destruct (add_items c rest user ps1) as [c1|]; simpl in *.
    + rewrite lookup_insert_eq. simpl. rewrite IH.
      destruct (add_items c rest user ps2) as [c2|]; simpl; [|done].
      by rewrite insert_insert_eq.
    + by rewrite <- IH.
Qed.

(** X3: the last rule for a path and a user wins: adding a second rule
    for the same path and user gives the policy that the second rule
    alone gives; permissions are overwritten, not merged. *)
Theorem add_path_config_last_write_wins cfg path user ps1 ps2 :
  (add_path_config cfg path user ps1 ≫= λ cfg1, add_path_config cfg1 path user ps2)
  = add_path_config cfg path user ps2.
Proof.
  unfold add_path_config.
  pose proof (add_items_twice (path_items path) (root cfg) user ps1 ps2) as Htwice.
  destruct (add_items (root cfg) (path_items path) user ps1) as [r1|]; simpl in *.
  - by rewrite Htwice.
  - by rewrite <- Htwice.
Qed.

Lemma check_perm_insert_other (m : gmap string (list string)) user quser perm ps :
  quser ≠ user → user ≠ "*" →
  check_perm (<[user := ps]> m) quser perm = check_perm m quser perm.
Proof.
  intros Hne Hstar. unfold check_perm.
  rewrite lookup_insert_ne by done. by rewrite (lookup_insert_ne m user "*").
Qed.

Lemma add_items_perms_other items p p' user quser ps perm :
  quser ≠ user → user ≠ "*" →
  add_items p items user ps = Some p' →
  check_perm (perms p') quser perm = check_perm (perms p) quser perm.
Proof.
  intros Hne Hstar Hadd. destruct items as [|i rest]; simpl in Hadd.
  - injection Hadd as <-. simpl. by apply check_perm_insert_other.
  - destruct (match children p !! i with
              | Some c => Some c
              | None => PathConfig_init i
              end) as [c|]; simpl in Hadd; [|done].
    destruct (add_items c rest user ps); simpl in Hadd; [|done].
    by injection Hadd as <-.
Qed.

Lemma check_items_leaf p items (u perm : string) (r : bool) :
  children p = ∅ → check_items p items u perm r = r.
Proof. intros Hleaf. destruct items; simpl; [done|]. by rewrite Hleaf, lookup_empty. Qed.

Lemma add_items_frame items p p' user quser ps perm (q : list string) (r : bool) :
  quser ≠ user → user ≠ "*" →
  add_items p items user ps = Some p' →
  check_items p' q quser perm r = check_items p q quser perm r.
Proof.
  intros Hne Hstar. revert p p' q r.
  induction items as [|i rest IH]; intros p p' q r Hadd; simpl in Hadd.
  - injection Hadd as <-. by destruct q.
  - destruct (children p !! i) as [c|] eqn:Hc; simpl in Hadd.
    + destruct (add_items c rest user ps) as [c'|] eqn:Hc'; simpl in Hadd; [|done].
      injection Hadd as <-. destruct q as [|j q']; simpl; [done|].
      destruct (decide (i = j)) as [<-|Hij].
      * rewrite lookup_insert_eq, Hc.
        rewrite (add_items_perms_other rest c c' user quser ps perm) by done.
        by apply IH.
      * by rewrite lookup_insert_ne.
    + destruct (PathConfig_init i) as [c|] eqn:Hinit; simpl in Hadd; [|done].
      destruct (add_items c rest user ps) as [c'|] eqn:Hc'; simpl in Hadd; [|done].
      injection Hadd as <-. destruct q as [|j q']; simpl; [done|].
      destruct (decide (i = j)) as [<-|Hij].
      * rewrite lookup_insert_eq, Hc.
        rewrite (add_items_perms_other rest c c' user quser ps perm) by done.
        rewrite (IH c c') by done.
        unfold PathConfig_init in Hinit.
        destruct (PyStr.contains "/" i); [done|]. injection Hinit as <-.
        rewrite check_items_leaf by done.
        unfold check_perm. simpl. by rewrite !lookup_empty.
      * by rewrite lookup_insert_ne.
Qed.

(** X4: a rule for a named user changes no answer given to anybody
    else: after [add_path_config] for [user], other than ["*"], every
    query by another user name has the answer it had before. *)
Theorem rule_for_user_leaves_others cfg cfg' path q user quser ps perm
    (psw : option string) :
  add_path_config cfg path user ps = Some cfg' →
  user ≠ "*" →
  quser ≠ user →
  check_path_for_perm cfg' q perm quser psw = check_path_for_perm cfg q perm quser psw.
Proof.
  intros Hadd Hstar Hne. unfold add_path_config in Hadd.
  destruct (add_items (root cfg) (path_items path) user ps) as [r|] eqn:Hr;
    simpl in Hadd; [|done].
  injection Hadd as <-.
  unfold check_path_for_perm, check_path_as. cbn [users root].
  destruct (users cfg !! quser) as [stored|].
  - case_bool_decide; [done|].
    rewrite (add_items_perms_other _ (root cfg) r user quser ps perm) by done.
    by apply (add_items_frame (path_items path) (root cfg) r user quser ps).
  - rewrite (add_items_perms_other _ (root cfg) r user "*" ps perm) by done.
    by apply (add_items_frame (path_items path) (root cfg) r user "*" ps).
Qed.

(** X5: rule paths are normalised: a path and the join of its kept
    segments have the same segments and add the same rule. *)
Theorem rule_path_normalised cfg path user ps :
  path_items (PyStr.join "/" (path_items path)) = path_items path
  ∧ add_path_config cfg (PyStr.join "/" (path_items path)) user ps
    = add_path_config cfg path user ps.
Proof.
  assert (path_items (PyStr.join "/" (path_items path)) = path_items path) as Hsame.
  { destruct (path_items path) as [|x l] eqn:Hitems; [reflexivity|].
    unfold path_items at 1.
    rewrite (split_join "/" (x :: l)); [|done|].
    - apply segments_all_kept. rewrite <- Hitems. apply path_items_kept.
    - rewrite <- Hitems. apply path_items_no_separator. }
  split; [done|]. unfold add_path_config. by rewrite Hsame.
Qed.

End building.

Lemma rule_decides_at_its_path_witness :
  match add_path_config Demo.policy_alice "/docs/./x/" "alice" ["r"] with
  | Some cfg' =>
      check_path_for_perm cfg' "docs/x" "r" "alice" (Some "pw") = true
      ∧ check_path_for_perm cfg' "docs/x" "w" "alice" (Some "pw") = false
  | None => False
  end.
Proof.
  destruct (add_path_config Demo.policy_alice "/docs/./x/" "alice" ["r"])
    as [cfg'|] eqn:Hadd; [|vm_compute in Hadd; discriminate].
  split.
  - rewrite (rule_decides_at_its_path Demo.policy_alice cfg' "/docs/./x/" "docs/x"
               "alice" "alice" ["r"] "r" (Some "pw") Hadd eq_refl eq_refl).
    reflexivity.
  - rewrite (rule_decides_at_its_path Demo.policy_alice cfg' "/docs/./x/" "docs/x"
               "alice" "alice" ["r"] "w" (Some "pw") Hadd eq_refl eq_refl).
    reflexivity.
Defined.

Lemma rule_for_user_leaves_others_witness :
  match add_path_config Demo.policy_closed_a "/a" "alice" ["r"; "w"] with
  | Some cfg' =>
      check_path_for_perm cfg' "a/b" "r" "bob" None
      = check_path_for_perm Demo.policy_closed_a "a/b" "r" "bob" None
  | None => False
  end.
Proof.
  destruct (add_path_config Demo.policy_closed_a "/a" "alice" ["r"; "w"])
    as [cfg'|] eqn:Hadd; [|vm_compute in Hadd; discriminate].
  apply (rule_for_user_leaves_others Demo.policy_closed_a cfg' "/a" "a/b" "alice"
           "bob" ["r"; "w"] "r" None Hadd); discriminate.
Defined.

(** ** What a loaded policy looks like *)

Section loaded_shape.
Implicit Types (cfg : AuthConfig) (p c : PathConfig) (items : list string).

Lemma named_tree_unfold p :
  named_tree p ↔
  ∀ i c, children p !! i = Some c →
         (filename c = i ∧ kept_segment i = true ∧ PyStr.contains "/" i = false)
         ∧ named_tree c.
Proof.
  split.
  - intros Hp i c Hc. split.
    + apply (Hp [] i c). simpl. by rewrite Hc.
    + intros items j n Hn. apply (Hp (i :: items) j n). simpl. by rewrite Hc.
  - intros Hp items i n Hn. destruct items as [|j rest]; simpl in Hn.
    + destruct (children p !! i) as [c|] eqn:Hc; [|done].
      injection Hn as <-. by apply (Hp i c).
    + destruct (children p !! j) as [c|] eqn:Hc; [|done].
      destruct (Hp j c Hc) as [_ Hnamed]. by apply (Hnamed rest i n).
Qed.

Lemma named_tree_leaf p : children p = ∅ → named_tree p.
Proof.
  intros Hleaf. apply named_tree_unfold. intros i c. by rewrite Hleaf, lookup_empty.
Qed.

Lemma add_items_filename items p p' (user : string) (ps : list string) :
  add_items p items user ps = Some p' → filename p' = filename p.
Proof.
  destruct items as [|i rest]; simpl; intros Hadd.
  - by injection Hadd as <-.
  - destruct (match children p !! i with
              | Some c => Some c
              | None => PathConfig_init i
              end) as [c|]; simpl in Hadd; [|done].
    destruct (add_items c rest user ps); simpl in Hadd; [|done].
    by injection Hadd as <-.
Qed.

Lemma add_items_named items p p' (user : string) (ps : list string) :
  Forall (λ s, kept_segment s = true ∧ PyStr.contains "/" s = false) items →
  named_tree p → add_items p items user ps = Some p' → named_tree p'.
Proof.
  intros Hitems. revert p p'.
  induction Hitems as [|i rest [Hkept Hsep] _ IH]; intros p p' Hp Hadd; simpl in Hadd.
  - injection Hadd as <-. apply named_tree_unfold. simpl.
    by apply named_tree_unfold.
  - pose proof (proj1 (named_tree_unfold p) Hp) as Hbelow.
    assert (∃ c, match children p !! i with
                 | Some c => Some c
                 | None => PathConfig_init i
                 end = Some c ∧ filename c = i ∧ named_tree c) as (c & Hc & Hname & Hnamed).
    { destruct (children p !! i) as [c|] eqn:Hc.
      - exists c. destruct (Hbelow i c Hc) as [(? & _) ?]. done.
      - unfold PathConfig_init. rewrite Hsep. eexists. split; [done|].
        split; [done|]. by apply named_tree_leaf. }
    rewrite Hc in Hadd. simpl in Hadd.
    destruct (add_items c rest user ps) as [c'|] eqn:Hc'; simpl in Hadd; [|done].
    injection Hadd as <-. apply named_tree_unfold. simpl.
    intros j d. rewrite lookup_insert_Some. intros [[<- <-]|[_ Hd]].
    + split; [|by apply (IH c)].
      rewrite (add_items_filename rest c c' user ps Hc'). done.
    + by apply Hbelow.
Qed.

Lemma load_paths_named (l : list ConfigPath) cfg cfg' :
  named_tree (root cfg) → load_paths cfg l = Some cfg' → named_tree (root cfg').
Proof.
  revert cfg. induction l as [|cp rest IH]; intros cfg Hcfg Hload; simpl in Hload.
  - by injection Hload as <-.
  - destruct (add_path_config cfg (cp_path cp) (cp_user cp) (cp_perms cp))
      as [cfg1|] eqn:Hadd; simpl in Hload; [|done].
    apply (IH cfg1); [|done]. unfold add_path_config in Hadd.
    destruct (add_items (root cfg) (path_items (cp_path cp)) (cp_user cp) (cp_perms cp))
      as [r|] eqn:Hr; simpl in Hadd; [|done].
    injection Hadd as <-. simpl.
    apply (add_items_named (path_items (cp_path cp)) (root cfg) r (cp_user cp)
             (cp_perms cp)); [|done..].
    apply Forall_forall. intros s Hs. split.
    + pose proof (path_items_kept (cp_path cp)) as Hall.
      rewrite Forall_forall in Hall. by apply Hall.
    + pose proof (path_items_no_separator (cp_path cp)) as Hall.
      rewrite Forall_forall in Hall. by apply Hall.
Qed.

Lemma load_paths_filename (l : list ConfigPath) cfg cfg' :
  load_paths cfg l = Some cfg' → filename (root cfg') = filename (root cfg).
Proof.
  revert cfg. induction l as [|cp rest IH]; intros cfg Hload; simpl in Hload.
  - by injection Hload as <-.
  - destruct (add_path_config cfg (cp_path cp) (cp_user cp) (cp_perms cp))
      as [cfg1|] eqn:Hadd; simpl in Hload; [|done].
    rewrite (IH cfg1 Hload). unfold add_path_config in Hadd.
    destruct (add_items (root cfg) (path_items (cp_path cp)) (cp_user cp) (cp_perms cp))
      as [r|] eqn:Hr; simpl in Hadd; [|done].
    injection Hadd as <-. simpl. by eapply add_items_filename.
Qed.

(** X6: the shape of a loaded tree: the root is named by the empty
    string, and every node below it is named by the segment under which
    its parent holds it, a segment that is not empty, [.] or [..] and
    holds no separator.  This holds of the fresh policy and of every
    policy [load_config] returns. *)
Theorem loaded_tree_names :
  (filename (root AuthConfig_init) = "" ∧ named_tree (root AuthConfig_init))
  ∧ ∀ (parsed : option Config) (cfg : AuthConfig),
      load_config AuthConfig_init parsed = Some cfg →
      filename (root cfg) = "" ∧ named_tree (root cfg).
Proof.
  assert (named_tree (root AuthConfig_init)) as Hinit by by apply named_tree_leaf.
  split; [done|]. intros parsed cfg.
  unfold load_config. destruct parsed as [config|]; [|done].
  destruct (load_paths AuthConfig_init (config_paths config)) as [cfg'|] eqn:Hload;
    [|done].
  intros [= <-]. rewrite load_users_root. split.
  - by rewrite (load_paths_filename _ _ _ Hload).
  - by eapply load_paths_named.
Qed.

Lemma load_users_lookup_absent (l : list ConfigUser) cfg (u : string) :
  u ∉ map cu_user l → users (load_users cfg l) !! u = users cfg !! u.
Proof.
  revert cfg. induction l as [|cu rest IH]; intros cfg Hu; simpl; [done|].
  simpl in Hu. apply not_elem_of_cons in Hu as [Hne Hrest].
  rewrite IH by done. simpl. by rewrite lookup_insert_ne.
Qed.

Lemma load_users_lookup_last (l1 l2 : list ConfigUser) cfg (u psw : string) :
  u ∉ map cu_user l2 →
  users (load_users cfg (l1 ++ mkConfigUser u psw :: l2)) !! u = Some psw.
Proof.
  revert cfg. induction l1 as [|cu rest IH]; intros cfg Hu; simpl.
  - rewrite load_users_lookup_absent by done. simpl. by rewrite lookup_insert_eq.
  - by apply IH.
Qed.

Lemma load_paths_total (l : list ConfigPath) cfg : is_Some (load_paths cfg l).
Proof.
  revert cfg. induction l as [|cp rest IH]; intros cfg; simpl; [by eexists|].
  unfold add_path_config.
  destruct (add_items_total (path_items (cp_path cp)) (root cfg) (cp_user cp)
              (cp_perms cp) (path_items_no_separator (cp_path cp))) as [r ->].
  simpl. apply IH.
Qed.

(** X7: a parsed configuration is always loaded, and the users of the
    loaded policy are exactly the users the configuration lists, each
    with the password of its last entry; the rules of the configuration
    do not touch them. *)
Theorem loaded_users (config : Config) (u : string) :
  ∃ cfg,
    load_config AuthConfig_init (Some config) = Some cfg
    ∧ (u ∉ map cu_user (config_users config) → users cfg !! u = None)
    ∧ (∀ l1 l2 psw,
         config_users config = (l1 ++ mkConfigUser u psw :: l2)%list →
         u ∉ map cu_user l2 →
         users cfg !! u = Some psw).
Proof.
  unfold load_config.
  destruct (load_paths_total (config_paths config) AuthConfig_init) as [cfg' Hload].
  rewrite Hload. pose proof (load_paths_users _ _ _ Hload) as Husers.
  eexists. split; [reflexivity|]. split.
  - intros Hu. rewrite load_users_lookup_absent by done. by rewrite Husers.
  - intros l1 l2 psw -> Hu. by apply load_users_lookup_last.
Qed.

End loaded_shape.

Lemma loaded_tree_names_witness :
  filename (root Demo.policy_override) = ""
  ∧ named_tree (root Demo.policy_override).
Proof.
  apply (proj2 loaded_tree_names
           (Some (mkConfig [mkConfigPath "/a/b" "alice" ["w"];
                            mkConfigPath "/a/b/c" "alice" ["r"]]
                    [mkConfigUser "alice" "pw"]))).
  reflexivity.
Defined.

Lemma loaded_users_witness :
  let config :=
    mkConfig [mkConfigPath "/a" "alice" ["r"]]
      [mkConfigUser "alice" "old"; mkConfigUser "bob" "x"; mkConfigUser "alice" "new"] in
  ∃ cfg, load_config AuthConfig_init (Some config) = Some cfg
         ∧ users cfg !! "alice" = Some "new"
         ∧ users cfg !! "carol" = None.
Proof.
  intros config.
  destruct (loaded_users config "alice") as (cfg & Hload & _ & Hlast).
  destruct (loaded_users config "carol") as (cfg' & Hload' & Habsent & _).
  assert (cfg' = cfg) as -> by congruence.
  exists cfg. split; [exact Hload|]. split.
  - apply (Hlast [mkConfigUser "alice" "old"; mkConfigUser "bob" "x"] [] "new");
      [reflexivity|]. apply not_elem_of_nil.
  - apply Habsent. simpl. rewrite !not_elem_of_cons. repeat split; try discriminate.
    apply not_elem_of_nil.
Defined.

(** ** Credentials *)

Lemma count_char_app (c : ascii) (a b : string) :
  count_char c (a ++ b) = count_char c a + count_char c b.
Proof. induction a as [|d a IH]; simpl; [done|]. rewrite IH. lia. Qed.

Lemma contains_count (c : ascii) (s : string) :
  PyStr.contains c s = false ↔ count_char c s = 0.
Proof.
  induction s as [|d s IH]; simpl; [done|].
  destruct (Ascii.eqb d c); simpl; [split; [done|lia]|done].
Qed.

Section credentials.
Context {platform : Platform}.

(** X9: encoding then decoding credentials gives them back exactly when
    neither the user name nor the password holds a colon; with a colon
    in either, the decoder answers [None], so such credentials cannot be
    presented.  (Base64 is assumed to give back the text it was given.) *)
Theorem decode_encode_credentials (b64encode_utf8 : string → string)
    (user psw : string) :
  b64decode_utf8 (b64encode_utf8 (user ++ ":" ++ psw)) = Ok (user ++ ":" ++ psw) →
  decode_http_auth_password (encode_http_auth_password b64encode_utf8 user psw)
  = if PyStr.contains ":" user || PyStr.contains ":" psw
    then Ok None else Ok (Some (user, psw)).
Proof.
  intros Hb64. unfold decode_http_auth_password, encode_http_auth_password.
  rewrite Hb64.
  destruct (PyStr.contains ":" user) eqn:Hu; [|destruct (PyStr.contains ":" psw) eqn:Hp];
    cbn [orb].
  - assert (count_char ":" (user ++ ":" ++ psw) ≠ 1) as Hcount.
    { rewrite !count_char_app. simpl.
      assert (count_char ":" user ≠ 0) by (rewrite <- contains_count; congruence).
      lia. }
    destruct (PyStr.split ":" (user ++ ":" ++ psw)) as [|a [|b [|d l]]] eqn:Hsplit;
      try done.
    destruct Hcount. apply (split_two_pieces ":"). by exists a, b.
  - assert (count_char ":" (user ++ ":" ++ psw) ≠ 1) as Hcount.
    { rewrite !count_char_app. simpl.
      assert (count_char ":" psw ≠ 0) by (rewrite <- contains_count; congruence).
      lia. }
    destruct (PyStr.split ":" (user ++ ":" ++ psw)) as [|a [|b [|d l]]] eqn:Hsplit;
      try done.
    destruct Hcount. apply (split_two_pieces ":"). by exists a, b.
  - change (user ++ ":" ++ psw) with (user ++ String ":" psw).
    rewrite split_app_sep by done. by rewrite split_no_sep.
Qed.


End credentials.

Lemma decode_encode_credentials_witness :
  decode_http_auth_password (platform := Demo.platform)
    (encode_http_auth_password Base64.b64encode_ascii "alice" "pw")
  = Ok (Some ("alice", "pw"))
  ∧ decode_http_auth_password (platform := Demo.platform)
      (encode_http_auth_password Base64.b64encode_ascii "alice" "p:w")
    = Ok None.
Proof.
  split.
  - apply (decode_encode_credentials (platform := Demo.platform)
             Base64.b64encode_ascii "alice" "pw"). reflexivity.
  - apply (decode_encode_credentials (platform := Demo.platform)
             Base64.b64encode_ascii "alice" "p:w"). reflexivity.
Defined.


(** ** What the handlers leave alone *)

Import Handler.

Section keeping.
Context {platform : Platform}.
Implicit Types (cfg : AuthConfig) (srv : Server) (req : Request) (st : HState).

Lemma keeps_ret {A : Type} (a : A) : keeps_fs (ret a).
Proof. by intros st. Qed.

Lemma keeps_raise {A : Type} (e : string) : keeps_fs (raise (A := A) e).
Proof. by intros st. Qed.

Lemma keeps_emit (o : Out) : keeps_fs (emit o).
Proof. by intros st. Qed.

Lemma keeps_log (l : LogEntry) : keeps_fs (log l).
Proof. by intros st. Qed.

Lemma keeps_get_fs : keeps_fs get_fs.
Proof. by intros st. Qed.

Lemma keeps_bind {A B : Type} (m : H A) (k : A → H B) :
  keeps_fs m → (∀ a, keeps_fs (k a)) → keeps_fs (bind m k).
Proof.
  intros Hm Hk st. unfold bind. specialize (Hm st).
  destruct (m st) as [[a|e] st']; simpl in *; [|done].
  by rewrite Hk.
Qed.

Lemma keeps_log_headers srv req :
  keeps_fs (SimpleHTTPFileServer.log_headers_if_needed srv req).
Proof.
  unfold SimpleHTTPFileServer.log_headers_if_needed.
  destruct (srv_log_headers srv); [apply keeps_log|apply keeps_ret].
Qed.

Ltac keeps :=
  repeat first
    [ apply keeps_bind; [|intros ?]
    | apply keeps_ret | apply keeps_raise | apply keeps_emit | apply keeps_log
    | apply keeps_get_fs | apply keeps_log_headers ].

Lemma keeps_list_files (root : string) :
  (∀ fs, (shell_find fs root).2 = fs) →
  keeps_fs (SimpleHTTPFileServer._list_files root).
Proof.
  intros Hreads st. unfold SimpleHTTPFileServer._list_files, bind, get_fs, set_fs,
    raise, ret.
  cbn [st_fs st_out st_log]. specialize (Hreads (st_fs st)).
  destruct (shell_find (st_fs st) root) as [[output|e] fs']; simpl in *; [|done].
  by destruct (bytes_decode output).
Qed.

Lemma keeps_send_head req :
  (∀ fs, (shell_find fs (translate_path (req_path req))).2 = fs) →
  keeps_fs (SimpleHTTPFileServer.send_head req).
Proof.
  intros Hreads.
  unfold SimpleHTTPFileServer.send_head, SimpleHTTPFileServer.list_directory.
  apply keeps_bind; [apply keeps_get_fs|]. intros fs.
  destruct (isdir fs _).
  - destruct (negb _); [keeps|].
    apply keeps_bind; [by apply keeps_list_files|intros files]. keeps.
  - destruct (open_rb fs _); keeps.
Qed.

Lemma keeps_plain_do_GET srv req :
  (∀ fs, (shell_find fs (translate_path (req_path req))).2 = fs) →
  keeps_fs (SimpleHTTPFileServer.do_GET srv req).
Proof.
  intros Hreads. unfold SimpleHTTPFileServer.do_GET.
  apply keeps_bind; [apply keeps_log_headers|intros _].
  apply keeps_bind; [by apply keeps_send_head|intros f].
  destruct f; keeps.
Qed.

Lemma keeps_plain_do_HEAD srv req :
  (∀ fs, (shell_find fs (translate_path (req_path req))).2 = fs) →
  keeps_fs (SimpleHTTPFileServer.do_HEAD srv req).
Proof.
  intros Hreads. unfold SimpleHTTPFileServer.do_HEAD.
  apply keeps_bind; [apply keeps_log_headers|intros _].
  apply keeps_bind; [by apply keeps_send_head|intros f]. apply keeps_ret.
Qed.

Lemma keeps_check_auth cfg srv req (perm : string) :
  keeps_fs (AuthSimpleHTTPFileServer.check_auth cfg srv req perm).
Proof.
  unfold AuthSimpleHTTPFileServer.check_auth, AuthSimpleHTTPFileServer.check_auth_impl,
    AuthSimpleHTTPFileServer.check_auth_except, AuthSimpleHTTPFileServer.do_AUTHHEAD,
    SimpleHTTPFileServer.log_message.
  apply keeps_bind.
  - destruct (PyStr.startswith ".." _); [apply keeps_ret|].
    apply keeps_bind; [apply keeps_get_fs|]. intros fs.
    destruct (AuthSimpleHTTPFileServer._get_auth_user_and_psw_from_header req)
      as [[[user psw]|]|e]; keeps.
    destruct wfile_accepts_str; keeps.
  - intros ok. destruct (negb ok); keeps.
Qed.

(** X11: apart from the shell command of a listing, reading never
    writes.  The listing of a directory runs a shell command whose line
    is built from the path; when that command only reads for the path of
    the request, a GET or HEAD request leaves the file system as it was,
    whatever the server, the policy, the headers and the outcome (a
    file, a listing, a redirect, a 404, the challenge, an exception). *)
Theorem get_and_head_keep_file_system srv req (fs : FS) :
  command req = GET ∨ command req = HEAD →
  (∀ fs', (shell_find fs' (translate_path (req_path req))).2 = fs') →
  st_fs (serve srv req fs).2 = fs.
Proof.
  intros Hmethod Hreads. unfold serve, handle_request, SimpleHTTPFileServer_handle,
    AuthSimpleHTTPFileServer.handle, AuthSimpleHTTPFileServer.do_GET,
    AuthSimpleHTTPFileServer.do_HEAD.
  assert (∀ (m : H unit), keeps_fs m → st_fs (m (mkHState fs [] [])).2 = fs) as Hrun.
  { intros m Hm. by rewrite Hm. }
  apply Hrun.
  destruct (srv_auth_config srv) as [cfg|]; destruct Hmethod as [-> | ->].
  - apply keeps_bind; [apply keeps_check_auth|]. intros ok.
    destruct ok; [by apply keeps_plain_do_GET|apply keeps_ret].
  - apply keeps_bind; [apply keeps_check_auth|]. intros ok.
    destruct ok; [by apply keeps_plain_do_HEAD|apply keeps_ret].
  - by apply keeps_plain_do_GET.
  - by apply keeps_plain_do_HEAD.
Qed.

End keeping.

Lemma get_and_head_keep_file_system_witness :
  st_fs (serve (platform := Demo.platform) (mkServer true (Some Demo.policy_closed_a))
           (Demo.request GET "/d/" None) Demo.storage).2 = Demo.storage
  ∧ st_fs (serve (platform := Demo.platform) Demo.plain_server
             (Demo.request HEAD "/d/a" None) Demo.storage).2 = Demo.storage.
Proof.
  split.
  - apply (get_and_head_keep_file_system (platform := Demo.platform)).
    + left. reflexivity.
    + intros fs'. reflexivity.
  - apply (get_and_head_keep_file_system (platform := Demo.platform)).
    + right. reflexivity.
    + intros fs'. reflexivity.
Defined.

(** ** Heads, bodies and the gate *)

Section gate.
Context {platform : Platform}.
Implicit Types (cfg : AuthConfig) (srv : Server) (req : Request) (st : HState).

Lemma send_head_run req st :
  (∃ e fs', SimpleHTTPFileServer.send_head req st
            = (Raise e, mkHState fs' (st_out st) (st_log st)))
  ∨ (∃ f out fs',
       SimpleHTTPFileServer.send_head req st
       = (Ok f, mkHState fs' (st_out st ++ out) (st_log st))
       ∧ ∀ d, f = Some d →
              In (send_header "Content-Length" (str_of_nat (String.length d))) out).
Proof.
  remember (SimpleHTTPFileServer.send_head req st) as r eqn:Hr.
  unfold SimpleHTTPFileServer.send_head, bind at 1, get_fs in Hr.
  cbn [st_fs st_out st_log] in Hr.
  destruct (isdir (st_fs st) (translate_path (req_path req))).
  - destruct (negb (PyStr.endswith_char "/" (url_path (urlsplit (req_path req))))).
    + right. subst r. unfold bind, emit, ret. cbn [st_fs st_out st_log].
      eexists None, _, _. split; [by rewrite <- !app_assoc|]. done.
    + destruct (shell_find (st_fs st) (translate_path (req_path req)))
        as [[output|e] fs'] eqn:Hfind.
      * destruct (bytes_decode output) as [txt|e] eqn:Hdecode.
        -- right. subst r. rewrite (list_directory_run _ output txt fs') by done.
           eexists (Some _), _, _. split; [reflexivity|].
           intros d [= <-]. simpl. tauto.
        -- left. subst r. exists e, fs'.
           unfold SimpleHTTPFileServer.list_directory,
             SimpleHTTPFileServer._list_files, bind, get_fs, set_fs, raise.
           rewrite Hfind. cbn [st_fs st_out st_log]. by rewrite Hdecode.
      * left. subst r. exists e, fs'.
        unfold SimpleHTTPFileServer.list_directory,
          SimpleHTTPFileServer._list_files, bind, get_fs, set_fs, raise.
        by rewrite Hfind.
  - destruct (open_rb (st_fs st) (translate_path (req_path req))) as [data|e|e].
    + right. subst r. unfold bind, emit, ret. cbn [st_fs st_out st_log].
      eexists (Some data), _, _. split; [by rewrite <- !app_assoc|].
      intros d [= <-]. simpl. tauto.
    + right. subst r. unfold bind, emit, ret. cbn [st_fs st_out st_log].
      eexists None, _, _. split; [reflexivity|]. done.
    + left. subst r. exists e, (st_fs st). unfold raise. by destruct st.
Qed.

(** X12: HEAD is GET without the body: on the plain handler the two end
    alike.  Either both raise the same exception, having sent nothing (a
    listing whose shell command or decoding raises, a path [open]
    rejects with another error than [OSError]); or both send the same
    status and headers, write the same log and leave the same file
    system, GET then copies the content and HEAD sends nothing more, and
    whenever there is a body (a file or a listing) the Content-Length
    header sent is the length of that body. *)
Theorem head_is_get_without_body srv req st :
  (∃ e st1,
     SimpleHTTPFileServer.do_HEAD srv req st = (Raise e, st1)
     ∧ SimpleHTTPFileServer.do_GET srv req st = (Raise e, st1)
     ∧ st_out st1 = st_out st)
  ∨ (∃ f st1,
       SimpleHTTPFileServer.do_HEAD srv req st = (Ok (), st1)
       ∧ SimpleHTTPFileServer.do_GET srv req st
         = (Ok (), mkHState (st_fs st1)
                     (st_out st1 ++ match f with
                                    | Some d => [copyfile d]
                                    | None => []
                                    end)
                     (st_log st1))
       ∧ ∀ d, f = Some d →
              In (send_header "Content-Length" (str_of_nat (String.length d)))
                 (st_out st1)).
Proof.
  unfold SimpleHTTPFileServer.do_HEAD, SimpleHTTPFileServer.do_GET,
    SimpleHTTPFileServer.log_headers_if_needed, bind.
  assert (∀ st0, st_out st0 = st_out st →
            (∃ e st1,
               (let (r, st') := SimpleHTTPFileServer.send_head req st0 in
                match r with
                | Ok _ => ret () st'
                | Raise e => (Raise e, st')
                end) = (Raise e, st1)
               ∧ (let (r, st') := SimpleHTTPFileServer.send_head req st0 in
                  match r with
                  | Ok a => match a with
                            | Some data => emit (copyfile data)
                            | None => ret ()
                            end st'
                  | Raise e => (Raise e, st')
                  end) = (Raise e, st1)
               ∧ st_out st1 = st_out st)
            ∨ (∃ f st1,
                 (let (r, st') := SimpleHTTPFileServer.send_head req st0 in
                  match r with
                  | Ok _ => ret () st'
                  | Raise e => (Raise e, st')
                  end) = (Ok (), st1)
                 ∧ (let (r, st') := SimpleHTTPFileServer.send_head req st0 in
                    match r with
                    | Ok a => match a with
                              | Some data => emit (copyfile data)
                              | None => ret ()
                              end st'
                    | Raise e => (Raise e, st')
                    end)
                   = (Ok (), mkHState (st_fs st1)
                               (st_out st1 ++ match f with
                                              | Some d => [copyfile d]
                                              | None => []
                                              end)
                               (st_log st1))
                 ∧ ∀ d, f = Some d →
                        In (send_header "Content-Length"
                              (str_of_nat (String.length d)))
                           (st_out st1))) as Hboth.
  { intros st0 Hout.
    destruct (send_head_run req st0) as [(e & fs' & ->)|(f & out & fs' & -> & Hlen)].
    - left. exists e. eexists. split; [reflexivity|]. split; [reflexivity|]. done.
    - right. exists f. eexists. split; [reflexivity|].
      cbn [st_fs st_out st_log]. split.
      + destruct f as [d|]; [reflexivity|].
        unfold ret. by rewrite app_nil_r.
      + intros d Hd. apply in_or_app. right. by apply Hlen. }
  destruct (srv_log_headers srv); apply Hboth; reflexivity.
Qed.

Lemma check_auth_denied cfg srv req (perm : string) st :
  AuthSimpleHTTPFileServer.check_auth_impl cfg req perm st = (Ok false, st) →
  ∃ st', AuthSimpleHTTPFileServer.check_auth cfg srv req perm st = (Ok false, st')
         ∧ st_out st' = (st_out st ++ challenge)%list
         ∧ st_fs st' = st_fs st.
Proof.
  intros Himpl. unfold AuthSimpleHTTPFileServer.check_auth, bind at 1.
  rewrite Himpl. cbn [negb].
  destruct (do_AUTHHEAD_run srv req st) as (st' & Hrun & Hout & Hfs).
  exists st'. unfold bind, ret. by rewrite Hrun.
Qed.

Lemma check_auth_granted cfg srv req (perm : string) st :
  AuthSimpleHTTPFileServer.check_auth_impl cfg req perm st = (Ok true, st) →
  AuthSimpleHTTPFileServer.check_auth cfg srv req perm st = (Ok true, st).
Proof.
  intros Himpl. unfold AuthSimpleHTTPFileServer.check_auth, bind at 1.
  by rewrite Himpl.
Qed.

Lemma handle_denied cfg srv req st :
  command req ≠ DELETE →
  AuthSimpleHTTPFileServer.check_auth_impl cfg req (requested_perm (command req)) st
  = (Ok false, st) →
  ∃ st', AuthSimpleHTTPFileServer.handle cfg srv req st = (Ok (), st')
         ∧ st_out st' = (st_out st ++ challenge)%list
         ∧ st_fs st' = st_fs st.
Proof.
  intros Hmethod Himpl.
  destruct (check_auth_denied cfg srv req _ st Himpl) as (st' & Hrun & Hout & Hfs).
  exists st'. split; [|done].
  unfold AuthSimpleHTTPFileServer.handle, AuthSimpleHTTPFileServer.do_HEAD,
    AuthSimpleHTTPFileServer.do_GET, AuthSimpleHTTPFileServer.do_PUT.
  destruct (command req); try done; simpl in Hrun;
    unfold bind at 1; by rewrite Hrun.
Qed.

Lemma handle_granted cfg srv req st :
  AuthSimpleHTTPFileServer.check_auth_impl cfg req (requested_perm (command req)) st
  = (Ok true, st) →
  AuthSimpleHTTPFileServer.handle cfg srv req st
  = SimpleHTTPFileServer_handle srv req st.
Proof.
  intros Himpl. pose proof (check_auth_granted cfg srv req _ st Himpl) as Hrun.
  unfold AuthSimpleHTTPFileServer.handle, AuthSimpleHTTPFileServer.do_HEAD,
    AuthSimpleHTTPFileServer.do_GET, AuthSimpleHTTPFileServer.do_PUT,
    AuthSimpleHTTPFileServer.do_DELETE, SimpleHTTPFileServer_handle.
  destruct (command req); try done; simpl in Hrun;
    unfold bind at 1; by rewrite Hrun.
Qed.

(** X13: the gate of the authenticating handler.  For a HEAD, GET or
    PUT request whose target has a path relative to the storage root
    that does not begin with two dots, and whose header gives an
    identity, the answer of the policy decides alone:
    when it allows, the request is handled exactly as by the plain
    handler; when it refuses, the response is the 401 challenge and the
    file system is not touched.  The permission asked is [w] for PUT and
    [r] otherwise, and [l] for any of them when the target is a
    directory. *)
Theorem authorization_gate cfg srv req (user : string) (psw : option string) st :
  command req ≠ DELETE →
  PyStr.startswith ".." (relpath (translate_path (req_path req))) = false →
  AuthSimpleHTTPFileServer._get_auth_user_and_psw_from_header req
  = Ok (Some (user, psw)) →
  (check_path_for_perm cfg (relpath (translate_path (req_path req)))
     (if isdir (st_fs st) (relpath (translate_path (req_path req)))
      then "l" else requested_perm (command req)) user psw = true →
   AuthSimpleHTTPFileServer.handle cfg srv req st
   = SimpleHTTPFileServer_handle srv req st)
  ∧ (check_path_for_perm cfg (relpath (translate_path (req_path req)))
       (if isdir (st_fs st) (relpath (translate_path (req_path req)))
        then "l" else requested_perm (command req)) user psw = false →
     ∃ st', AuthSimpleHTTPFileServer.handle cfg srv req st = (Ok (), st')
            ∧ st_out st' = (st_out st ++ challenge)%list
            ∧ st_fs st' = st_fs st).
Proof.
  intros Hmethod Hinside Hid.
  assert (AuthSimpleHTTPFileServer.check_auth_impl cfg req
            (requested_perm (command req)) st
          = (Ok (check_path_for_perm cfg (relpath (translate_path (req_path req)))
                   (if isdir (st_fs st) (relpath (translate_path (req_path req)))
                    then "l" else requested_perm (command req)) user psw), st))
    as Himpl.
  { unfold AuthSimpleHTTPFileServer.check_auth_impl, bind, ret, get_fs.
    by rewrite Hinside, Hid. }
  split; intros Hverdict; rewrite Hverdict in Himpl.
  - by apply handle_granted.
  - by apply handle_denied.
Qed.

(** X14: a target whose relative path begins with two dots is refused
    before the header and the policy are looked at: for HEAD, GET and
    PUT the response is the challenge, whatever the credentials and the
    rules. *)
Theorem dotdot_target_refused cfg srv req st :
  command req ≠ DELETE →
  PyStr.startswith ".." (relpath (translate_path (req_path req))) = true →
  ∃ st', AuthSimpleHTTPFileServer.handle cfg srv req st = (Ok (), st')
         ∧ st_out st' = (st_out st ++ challenge)%list
         ∧ st_fs st' = st_fs st.
Proof.
  intros Hmethod Hdots. apply handle_denied; [done|].
  unfold AuthSimpleHTTPFileServer.check_auth_impl, ret. by rewrite Hdots.
Qed.

End gate.

Lemma authorization_gate_witness :
  AuthSimpleHTTPFileServer.handle (platform := Demo.platform) Demo.policy_override
    (mkServer false (Some Demo.policy_override))
    (Demo.request PUT "/a/b/f" (Some "Basic YWxpY2U6cHc=")) Demo.start
  = SimpleHTTPFileServer_handle (platform := Demo.platform)
      (mkServer false (Some Demo.policy_override))
      (Demo.request PUT "/a/b/f" (Some "Basic YWxpY2U6cHc=")) Demo.start
  ∧ ∃ st', AuthSimpleHTTPFileServer.handle (platform := Demo.platform)
             Demo.policy_override (mkServer false (Some Demo.policy_override))
             (Demo.request GET "/a/b/f" (Some "Basic YWxpY2U6cHc=")) Demo.start
           = (Ok (), st')
           ∧ st_out st' = challenge ∧ st_fs st' = Demo.storage.
Proof.
  split.
  - apply (authorization_gate (platform := Demo.platform) Demo.policy_override
             (mkServer false (Some Demo.policy_override))
             (Demo.request PUT "/a/b/f" (Some "Basic YWxpY2U6cHc="))
             "alice" (Some "pw") Demo.start); [discriminate|reflexivity..].
  - apply (authorization_gate (platform := Demo.platform) Demo.policy_override
             (mkServer false (Some Demo.policy_override))
             (Demo.request GET "/a/b/f" (Some "Basic YWxpY2U6cHc="))
             "alice" (Some "pw") Demo.start); [discriminate|reflexivity..].
Defined.

Lemma dotdot_target_refused_witness :
  ∃ st', AuthSimpleHTTPFileServer.handle (platform := Demo.platform)
           Demo.policy_alice (mkServer false (Some Demo.policy_alice))
           (Demo.request GET "/..notes" (Some "Basic YWxpY2U6cHc=")) Demo.start
         = (Ok (), st')
         ∧ st_out st' = challenge ∧ st_fs st' = Demo.storage.
Proof.
  apply (dotdot_target_refused (platform := Demo.platform) Demo.policy_alice
           (mkServer false (Some Demo.policy_alice))
           (Demo.request GET "/..notes" (Some "Basic YWxpY2U6cHc=")) Demo.start);
    [discriminate|reflexivity].
Defined.

(** ** Uploads *)

Lemma string_app_nil_r (s : string) : s ++ "" = s.
Proof.
  induction s as [|c s IH]; [done|].
  change (String c (s ++ "") = String c s). by rewrite IH.
Qed.

Lemma string_app_assoc (a b c : string) : (a ++ b) ++ c = a ++ b ++ c.
Proof.
  induction a as [|d a IH]; [done|].
  change (String d ((a ++ b) ++ c) = String d (a ++ b ++ c)). by rewrite IH.
Qed.

Lemma substring_none (s : string) : String.substring 0 0 s = "".
Proof. by destruct s. Qed.

Lemma substring_take_drop (n m : nat) (s : string) :
  String.substring 0 n s ++ String.substring 0 m (PyStr.drop n s)
  = String.substring 0 (n + m) s.
Proof.
  revert s. induction n as [|n IH]; intros s.
  - by destruct s.
  - destruct s as [|c s].
    + by destruct m.
    + change (String c (String.substring 0 n s
                        ++ String.substring 0 m (PyStr.drop n s))
              = String c (String.substring 0 (n + m) s)).
      by rewrite IH.
Qed.

Section uploads.
Context {platform : Platform}.

(** The content of the file being written, as far as the platform shows
    it, and the assumption that a write appends to it. *)
Variable out_path : string.
Variable content : FS → string.
Hypothesis write_appends :
  ∀ fs data, ∃ fs', file_write fs out_path data = (Ok (), fs')
                    ∧ content fs' = content fs ++ data.

Lemma copy_fileobj_length_fuel (fuel : nat) (fs : FS) (in_file : string)
    (length bufsize : Z) :
  (0 < bufsize)%Z → (Z.to_nat length ≤ fuel)%nat →
  ∃ fs', SimpleHTTPFileServer.copy_fileobj_length fuel fs in_file out_path
           length bufsize = (Ok (), fs')
         ∧ content fs'
           = content fs ++ String.substring 0 (Z.to_nat length) in_file.
Proof.
  revert fs in_file length bufsize.
  induction fuel as [|fuel IH]; intros fs in_file length bufsize Hbuf Hfuel; simpl.
  - exists fs. split; [done|].
    replace (Z.to_nat length) with 0 by lia.
    by rewrite substring_none, string_app_nil_r.
  - destruct (0 <? length)%Z eqn:Hpos.
    + apply Z.ltb_lt in Hpos.
      set (chunk := if (length <? bufsize)%Z then length else bufsize).
      assert (0 < chunk ∧ chunk ≤ length)%Z as [Hchunk Hle].
      { unfold chunk. destruct (length <? bufsize)%Z eqn:Hlt; [lia|].
        apply Z.ltb_ge in Hlt. lia. }
      destruct (write_appends fs (String.substring 0 (Z.to_nat chunk) in_file))
        as (fs1 & -> & Hcontent).
      destruct (IH fs1 (PyStr.drop (Z.to_nat chunk) in_file) (length - chunk)%Z chunk)
        as (fs' & -> & Hcontent'); [lia..|].
      exists fs'. split; [done|].
      rewrite Hcontent', Hcontent, string_app_assoc, substring_take_drop.
      do 2 f_equal. lia.
    + apply Z.ltb_ge in Hpos. exists fs. split; [done|].
      replace (Z.to_nat length) with 0 by lia.
      by rewrite substring_none, string_app_nil_r.
Qed.

(** X15: the copy loop of an upload ends within the rounds it is given
    and writes the first [length] characters of the request body, no
    more and no less (all of the body when it is shorter), whatever the
    buffer size; a zero or negative length writes nothing. *)
Theorem copy_fileobj_length_copies (fs : FS) (in_file : string) (length bufsize : Z) :
  (0 < bufsize)%Z →
  ∃ fs', SimpleHTTPFileServer.copy_fileobj_length (Z.to_nat length) fs in_file
           out_path length bufsize = (Ok (), fs')
         ∧ content fs'
           = content fs ++ String.substring 0 (Z.to_nat length) in_file.
Proof. intros Hbuf. by apply copy_fileobj_length_fuel. Qed.

End uploads.

Lemma copy_fileobj_length_copies_witness :
  ∃ fs', SimpleHTTPFileServer.copy_fileobj_length (platform := Demo.platform)
           (Z.to_nat 5) Demo.storage "hello world" "d/new" 5 2 = (Ok (), fs')
         ∧ default "" (Demo.files fs' !! "d/new")
           = default "" (Demo.files Demo.storage !! "d/new")
             ++ String.substring 0 (Z.to_nat 5) "hello world".
Proof.
  apply (copy_fileobj_length_copies (platform := Demo.platform) "d/new"
           (λ fs, default "" (Demo.files fs !! "d/new"))).
  - intros fs data. eexists. split; [reflexivity|]. simpl.
    by rewrite lookup_insert_eq.
  - lia.
Defined.

Section failed_upload.
Context {platform : Platform}.

(** X16: an upload that fails leaves behind what it had already done: a
    PUT whose Content-Length cannot be read as an integer is answered
    405, its cause is logged, and the parent directories created for it
    stay in the file system. *)
Theorem failed_put_keeps_directories (srv : Server) (req : Request) (fs fs1 : FS)
    (e : string) :
  srv_auth_config srv = None →
  command req = PUT →
  isdir fs (translate_path (req_path req)) = false →
  path_exists fs (dirname (translate_path (req_path req))) = false →
  makedirs fs (dirname (translate_path (req_path req))) = (Ok (), fs1) →
  int_of_header (headers_get "Content-Length" (headers req)) = Raise e →
  st_fs (serve srv req fs).2 = fs1
  ∧ st_out (serve srv req fs).2 = [send_error 405 None]
  ∧ In (Log_message e) (st_log (serve srv req fs).2).
Proof.
  intros Hplain Hput Hdir Hparent Hmk Hint.
  unfold serve, handle_request, SimpleHTTPFileServer_handle.
  rewrite Hplain, Hput.
  unfold SimpleHTTPFileServer.do_PUT, SimpleHTTPFileServer.put_body,
    SimpleHTTPFileServer.log_headers_if_needed, SimpleHTTPFileServer.log_message,
    bind, get_fs, set_fs, emit, log.
  destruct (srv_log_headers srv); unfold ret; cbn [st_fs st_out st_log];
    rewrite Hdir, Hparent; cbn [negb]; rewrite Hmk, Hint;
    cbn [st_fs st_out st_log fst snd]; repeat split; simpl; tauto.
Qed.

End failed_upload.

Lemma failed_put_keeps_directories_witness :
  "new" ∈ Demo.dirs (st_fs (serve (platform := Demo2.platform) Demo.plain_server
                              (Demo.request PUT "/new/f" None) Demo.storage).2)
  ∧ st_out (serve (platform := Demo2.platform) Demo.plain_server
              (Demo.request PUT "/new/f" None) Demo.storage).2
    = [send_error 405 None].
Proof.
  destruct (failed_put_keeps_directories (platform := Demo2.platform)
              Demo.plain_server (Demo.request PUT "/new/f" None) Demo.storage
              (Demo.mkFs (Demo.files Demo.storage) ({["new"]} ∪ Demo.dirs Demo.storage)
                 (Demo.find_stdout Demo.storage))
              "TypeError" eq_refl eq_refl eq_refl eq_refl eq_refl eq_refl)
    as (Hfs & Hout & _).
  split; [|exact Hout]. rewrite Hfs. simpl. set_solver.
Defined.

(** ** The listing body *)

Lemma all_printable_app (a b : string) :
  all_printable (a ++ b) = all_printable a && all_printable b.
Proof.
  induction a as [|c a IH]; [done|].
  change (printable c && all_printable (a ++ b)
          = printable c && all_printable a && all_printable b).
  rewrite IH. by destruct (printable c).
Qed.

Lemma json_escape_char_printable (c : ascii) :
  all_printable (json_escape_char c) = true.
Proof. destruct c as [[] [] [] [] [] [] [] []]; reflexivity. Qed.

Lemma json_string_printable (s : string) : all_printable (json_string s) = true.
Proof.
  unfold json_string.
  change (all_printable (json_escape s ++ String (ascii_of_nat 34) "") = true).
  rewrite all_printable_app. rewrite andb_true_r.
  induction s as [|c s IH]; [done|].
  change (all_printable (json_escape_char c ++ json_escape s) = true).
  by rewrite all_printable_app, json_escape_char_printable, IH.
Qed.

(** X17: the body of a directory listing is printable ASCII whatever the
    file names are: every character outside that range, the quote and
    the backslash are sent as escapes. *)
Theorem json_dumps_printable (l : list string) (sort_keys : bool) :
  all_printable (json_dumps l sort_keys) = true.
Proof.
  unfold json_dumps.
  change (all_printable (PyStr.join ", " (map json_string l) ++ "]") = true).
  rewrite all_printable_app. rewrite andb_true_r.
  induction l as [|x l IH]; [done|].
  destruct l as [|y l'].
  - apply json_string_printable.
  - change (map json_string (x :: y :: l'))
      with (json_string x :: map json_string (y :: l')).
    rewrite join_cons by done.
    rewrite !all_printable_app, json_string_printable, IH. done.
Qed.

(** ** The log queue *)

Section log_queue.
Import LogQueue.

(** X18: log lines are neither lost, doubled nor reordered.  However the
    writes of the handlers and the rounds of the print thread interleave,
    what has been written to the log file followed by what still waits
    in the queue is what was there at the start followed by the lines
    written since, in the order of the writes; and when flushing is
    asked for, everything written is flushed after every round. *)
Theorem log_lines_in_order (should_flush : bool) (acts : list Action) (s : State) :
  (written (exec should_flush acts s) ++ queue (exec should_flush acts s)
   = written s ++ queue s ++ writes acts)%list
  ∧ (should_flush = true → flushed s = List.length (written s) →
     flushed (exec should_flush acts s)
     = List.length (written (exec should_flush acts s))).
Proof.
  assert (∀ a s, (written (act should_flush s a) ++ queue (act should_flush s a)
                  = written s ++ queue s ++ writes [a])%list
                 ∧ (should_flush = true → flushed s = List.length (written s) →
                    flushed (act should_flush s a)
                    = List.length (written (act should_flush s a)))) as Hact.
  { intros [data|] s'; simpl.
    - done.
    - unfold run_round. destruct (queue s') as [|data rest] eqn:Hq; simpl.
      + rewrite ?Hq, ?app_nil_r. done.
      + rewrite ?app_nil_r, <- ?app_assoc. split; [done|]. by intros -> _. }
  unfold exec. revert s. induction acts as [|a acts IH]; intros s; simpl.
  - split; [by rewrite app_nil_r|done].
  - destruct (IH (act should_flush s a)) as [Horder Hflush].
    destruct (Hact a s) as [Horder1 Hflush1]. split.
    + rewrite Horder, app_assoc, Horder1. rewrite <- !app_assoc. do 2 f_equal.
      by destruct a.
    + intros Hsf Hs. apply Hflush; [done|]. by apply Hflush1.
Qed.

End log_queue.

Lemma log_lines_in_order_witness :
  let s := LogQueue.exec true
             [LogQueue.Write "a"; LogQueue.Round; LogQueue.Round;
              LogQueue.Write "b"; LogQueue.Write "c"; LogQueue.Round]
             (LogQueue.mkState [] [] 0) in
  (LogQueue.written s ++ LogQueue.queue s = ["a"; "b"; "c"])%list
  ∧ LogQueue.flushed s = List.length (LogQueue.written s).
Proof.
  intros s.
  destruct (log_lines_in_order true
              [LogQueue.Write "a"; LogQueue.Round; LogQueue.Round;
               LogQueue.Write "b"; LogQueue.Write "c"; LogQueue.Round]
              (LogQueue.mkState [] [] 0)) as [Horder Hflush].
  split; [exact Horder|]. apply Hflush; reflexivity.
Defined.

(** ** Start-up, continued *)

Section startup.
Import Startup.

Lemma start_listeners_run (i n : nat) :
  start_listeners i n = (map ev_listener_start (seq i n), inr ()).
Proof.
  revert i. induction n as [|n IH]; intros i; simpl; [done|].
  unfold Startup.bind, tell. by rewrite IH.
Qed.

(** X19: a start-up in which every system call succeeds and the access
    configuration, if one is named, exists and is read and parsed
    without an exception: the socket is created, bound and put to listen
    once, the configuration is then loaded, and only after that the
    listeners are started, exactly [num_threads] of them, numbered from
    0; the main thread then waits for them for ever, or ends with status
    0 when there is none to wait for. *)
Theorem start_up_run (w : World) (a : Args) :
  (∀ p, log_path a = Some p → can_open_log w p = true) →
  can_chdir w (storage_path a) = true →
  can_socket w = true →
  can_bind w (host a) (port a) = true →
  (∀ p, access_config_path a = Some p →
        file_exists w p = true ∧ is_Some (parsed_config w p)) →
  run w a
  = ((match log_path a with Some p => [ev_open_log p] | None => [] end
      ++ [ev_log_thread_start;
          ev_log_write ("hosting server from: " ++ storage_path a);
          ev_chdir (storage_path a);
          ev_socket; ev_setsockopt; ev_bind (host a) (port a); ev_listen 5]
      ++ match access_config_path a with
         | Some p => [ev_log_write ("Setting up access restrictions" ++ nl);
                      ev_auth_config_init; ev_load_config p]
         | None => []
         end
      ++ [ev_log_write ("listening on " ++ host a ++ ":"
                        ++ str_of_nat (N.to_nat (port a)) ++ " using "
                        ++ str_of_nat (num_threads a) ++ " threads" ++ nl)]
      ++ map ev_listener_start (seq 0 (num_threads a)))%list,
     match num_threads a with O => Exited 0 | S _ => Waiting end).
Proof.
  intros Hlog Hchdir Hsocket Hbind Hconfig.
  unfold run, setup_and_start_http_server, setup_log, create_socket, syscall,
    join_listeners.
  rewrite Hchdir, Hsocket, Hbind, start_listeners_run.
  assert (∀ p, access_config_path a = Some p →
               file_exists w p = true
               ∧ ∃ cfg, load_config AuthConfig_init (parsed_config w p) = Some cfg)
    as Hloads.
  { intros p Hp. destruct (Hconfig p Hp) as [Hexists [config Hparsed]].
    split; [done|]. rewrite Hparsed. unfold load_config.
    destruct (load_paths_total (config_paths config) AuthConfig_init) as [cfg' ->].
    by eexists. }
  destruct (log_path a) as [lp|]; [rewrite (Hlog lp eq_refl)|];
    (destruct (access_config_path a) as [p|];
     [destruct (Hloads p eq_refl) as [-> [cfg ->]]|]);
    destruct (num_threads a); cbn; rewrite ?app_nil_r; reflexivity.
Qed.

(** X8: a configuration file that exists but cannot be read or parsed
    does not leave an empty policy behind: [load_config] ends in the
    exception of its [except] branch, start-up ends with status 1, no
    configuration is loaded and no listener is started. *)
Theorem unloadable_config_stops_start_up (w : World) (a : Args) (p : string) :
  access_config_path a = Some p →
  file_exists w p = true →
  parsed_config w p = None →
  load_config AuthConfig_init (parsed_config w p) = None
  ∧ exit_status (run w a).2 = Some 1
  ∧ Forall (λ e, (∀ i, e ≠ ev_listener_start i) ∧ ∀ q, e ≠ ev_load_config q)
      (run w a).1.
Proof.
  intros Hpath Hexists Hparsed. split; [by rewrite Hparsed|].
  unfold run, setup_and_start_http_server, setup_log, create_socket, syscall.
  rewrite Hpath, Hexists, Hparsed. cbn [negb load_config].
  destruct (log_path a) as [lp|];
    [destruct (can_open_log w lp)|];
    destruct (can_chdir w (storage_path a));
    destruct (can_socket w);
    destruct (can_bind w (host a) (port a));
    cbn; (split; [reflexivity|repeat constructor; done]).
Qed.

(** X20: a start-up in which opening the log file, entering the storage
    directory, creating the socket or binding the port fails: the
    process ends with status 1 and no listener is ever started. *)
Theorem start_up_failure (w : World) (a : Args) :
  (∃ p, log_path a = Some p ∧ can_open_log w p = false)
  ∨ can_chdir w (storage_path a) = false
  ∨ can_socket w = false
  ∨ can_bind w (host a) (port a) = false →
  exit_status (run w a).2 = Some 1
  ∧ Forall (λ e, (∀ i, e ≠ ev_listener_start i) ∧ e ≠ ev_listen 5) (run w a).1.
Proof.
  intros Hfail.
  unfold run, setup_and_start_http_server, setup_log, create_socket, syscall.
  destruct (log_path a) as [lp|] eqn:Hlp;
    [destruct (can_open_log w lp) eqn:Hopen|];
    destruct (can_chdir w (storage_path a)) eqn:Hchdir;
    destruct (can_socket w) eqn:Hsocket;
    destruct (can_bind w (host a) (port a)) eqn:Hbind;
    try (cbn; split; [reflexivity|repeat constructor; done]);
    exfalso; destruct Hfail as [(p & Hp & Hno)|[|[|]]]; congruence.
Qed.

End startup.

Lemma start_up_run_witness :
  (Startup.run Demo2.world_all_ok Demo2.args_with_config).2 = Startup.Waiting
  ∧ List.filter (λ e, match e with Startup.ev_listener_start _ => true | _ => false end)
      (Startup.run Demo2.world_all_ok Demo2.args_with_config).1
    = [Startup.ev_listener_start 0; Startup.ev_listener_start 1;
       Startup.ev_listener_start 2].
Proof.
  rewrite (start_up_run Demo2.world_all_ok Demo2.args_with_config);
    [ split; reflexivity | reflexivity | reflexivity | reflexivity | reflexivity
    | intros p _; split; [reflexivity|by eexists] ].
Defined.

Lemma unloadable_config_stops_start_up_witness :
  Startup.exit_status
    (Startup.run
       (Startup.mkWorld (λ _, true) (λ _, true) true (λ _ _, true) (λ _, true)
          (λ _, None))
       Demo2.args_with_config).2 = Some 1.
Proof.
  apply (unloadable_config_stops_start_up
           (Startup.mkWorld (λ _, true) (λ _, true) true (λ _ _, true) (λ _, true)
              (λ _, None))
           Demo2.args_with_config "access.json"); reflexivity.
Defined.

Lemma start_up_failure_witness :
  Startup.exit_status (Startup.run Demo2.world_port_taken Demo2.args_with_config).2
  = Some 1.
Proof.
  apply (start_up_failure Demo2.world_port_taken Demo2.args_with_config).
  right. right. right. reflexivity.
Defined.

(** ** Paths the tree does not know *)

Lemma split_app (c : ascii) (a b : string) :
  PyStr.split c (a ++ String c b) = (PyStr.split c a ++ PyStr.split c b)%list.
Proof.
  induction a as [|d a IH].
  - change (PyStr.split c (String c b) = [""] ++ PyStr.split c b)%list.
    simpl. by rewrite Ascii.eqb_refl.
  - change (String d a ++ String c b) with (String d (a ++ String c b)).
    cbn [PyStr.split]. rewrite IH.
    pose proof (split_nonempty c a) as Hne.
    destruct (Ascii.eqb d c); [done|].
    by destruct (PyStr.split c a).
Qed.

Lemma check_items_app (p n : PathConfig) (items1 items2 : list string)
    (u perm : string) (r : bool) :
  descend p items1 = Some n →
  check_items p (items1 ++ items2) u perm r
  = check_items n items2 u perm (check_items p items1 u perm r).
Proof.
  revert p r. induction items1 as [|i rest IH]; intros p r Hn; simpl in *.
  - by injection Hn as <-.
  - destruct (children p !! i) as [c|]; [|done]. by apply IH.
Qed.

(** X21: a path the tree does not reach inherits the answer of its
    deepest known ancestor: when the tree has the node of [q] and, under
    it, no child for the next segment, a query for [q/rest] is answered
    as the query for [q]; nodes that are missing do not deny. *)
Theorem unknown_descendant_inherits (cfg : AuthConfig) (q rest perm user : string)
    (psw : option string) (n : PathConfig) :
  descend (root cfg) (PyStr.split "/" q) = Some n →
  children n !! default "" (head (PyStr.split "/" rest)) = None →
  check_path_for_perm cfg (q ++ "/" ++ rest) perm user psw
  = check_path_for_perm cfg q perm user psw.
Proof.
  intros Hn Hchild.
  assert (∀ u, check_path_as cfg (q ++ "/" ++ rest) perm u
               = check_path_as cfg q perm u) as Hsame.
  { intros u. unfold check_path_as.
    change (q ++ "/" ++ rest) with (q ++ String "/" rest).
    rewrite split_app, (check_items_app _ n) by done.
    destruct (PyStr.split "/" rest) as [|j l]; [done|].
    simpl in *. by rewrite Hchild. }
  unfold check_path_for_perm. rewrite !Hsame. done.
Qed.

Lemma unknown_descendant_inherits_witness :
  check_path_for_perm Demo.policy_override "a/b/x/y" "w" "alice" (Some "pw")
  = check_path_for_perm Demo.policy_override "a/b" "w" "alice" (Some "pw").
Proof.
  eapply (unknown_descendant_inherits Demo.policy_override "a/b" "x/y" "w" "alice"
            (Some "pw")).
  - reflexivity.
  - reflexivity.
Defined.

Section listing_edges.
Context {platform : Platform}.
Import Handler.

(** X22: what [_list_files] returns, given what the shell command
    printed.  When the output decodes, the list is never empty: it holds
    one more name than the stripped text has line breaks, and for a
    directory without files, where [find] prints nothing, it is the
    single empty string.  When the output does not decode (a file name
    that is not UTF-8), [_list_files] raises.  Either way the file
    system is the one the shell command left. *)
Theorem list_files_never_empty (path out : string) (fs' : FS) (st : HState) :
  shell_find (st_fs st) path = (Ok out, fs') →
  (∀ txt, bytes_decode out = Ok txt →
          ∃ files,
            SimpleHTTPFileServer._list_files path st
            = (Ok files, mkHState fs' (st_out st) (st_log st))
            ∧ List.length files
              = S (count_char (ascii_of_nat 10) (PyStr.strip txt))
            ∧ (txt = "" → files = [""]))
  ∧ (∀ e, bytes_decode out = Raise e →
          SimpleHTTPFileServer._list_files path st
          = (Raise e, mkHState fs' (st_out st) (st_log st))).
Proof.
  intros Hfind.
  unfold SimpleHTTPFileServer._list_files, bind, get_fs, set_fs, ret, raise.
  rewrite Hfind. cbn [st_fs st_out st_log]. split.
  - intros txt ->. eexists. split; [reflexivity|]. split.
    + apply split_length.
    + intros ->. reflexivity.
  - by intros e ->.
Qed.


End listing_edges.


Lemma list_files_never_empty_witness :
  ∃ files,
    SimpleHTTPFileServer._list_files (platform := Demo.platform) "empty" Demo.start
    = (Ok files, Demo.start)
    ∧ files = [""].
Proof.
  destruct (list_files_never_empty (platform := Demo.platform) "empty" ""
              Demo.storage Demo.start eq_refl) as [Hdecodes _].
  destruct (Hdecodes "" eq_refl) as (files & Hrun & _ & Hempty).
  exists files. split; [exact Hrun|]. apply Hempty. reflexivity.
Defined.

Lemma head_is_get_without_body_witness :
  (∃ e st1,
     SimpleHTTPFileServer.do_HEAD (platform := Demo.platform) Demo.plain_server
       (Demo.request HEAD "/d/a" None) Demo.start = (Raise e, st1)
     ∧ SimpleHTTPFileServer.do_GET (platform := Demo.platform) Demo.plain_server
         (Demo.request HEAD "/d/a" None) Demo.start = (Raise e, st1)
     ∧ st_out st1 = [])
  ∨ (∃ f st1,
       SimpleHTTPFileServer.do_HEAD (platform := Demo.platform) Demo.plain_server
         (Demo.request HEAD "/d/a" None) Demo.start = (Ok (), st1)
       ∧ SimpleHTTPFileServer.do_GET (platform := Demo.platform) Demo.plain_server
           (Demo.request HEAD "/d/a" None) Demo.start
         = (Ok (), @mkHState Demo.platform (st_fs st1)
                     (st_out st1 ++ match f with
                                    | Some d => [copyfile d]
                                    | None => []
                                    end)
                     (st_log st1))
       ∧ ∀ d, f = Some d →
              In (send_header "Content-Length" (str_of_nat (String.length d)))
                 (st_out st1)).
Proof.
  apply (head_is_get_without_body (platform := Demo.platform) Demo.plain_server
           (Demo.request HEAD "/d/a" None) Demo.start).
Defined.
